(** * nora: geometry buffers and text layout

    A shallow embedding of [geometry.go] (the [Geometry] container, its
    validator and the append-merge) and of [builtin/shapes/text.go] (the
    [Text] component that regenerates one quad per glyph), with the
    properties of the specification stated over them.

    Conventions of the embedding:
    - Go [int] is [Z]; [/] and [%] are truncated ([Z.quot], [Z.rem]).
      Lengths of slices never approach 2^63, so no 64-bit wrap is written.
    - [uint16] is a [Z] kept in [0, 65536) by [u16]; every [uint16]
      operation of the source is followed by its wrap-around.
    - [float32] is IEEE-754 binary32 ([spec_float] at precision 24 and
      maximal exponent 128), rounding to nearest even.
    - A slice is a list.  [indices] is compared with [nil] by the source, so
      it is an [option (list Z)] with [None] for [nil]; [vertices] is never
      compared with [nil], so [nil] and the empty slice are one list.
      Slices are used as values: no property below depends on two slices
      sharing a backing array.
    - A panic leaves the receiver as it is at that point: operations on
      [*Geometry] are state transformers that return the state reached
      together with the outcome. *)

From Stdlib Require Import ZArith Lia Floats.SpecFloat.
From stdpp Require Import base option list strings gmap.

Local Open Scope Z_scope.

(** ** Go primitives *)

Definition len {A : Type} (l : list A) : Z := Z.of_nat (length l).

Definition u16 (z : Z) : Z := z mod 65536.

Definition float32 : Type := spec_float.

Definition f32_of_int (n : Z) : float32 := binary_normalize 24 128 n 0 false.
Definition f32_add : float32 → float32 → float32 := SFadd 24 128.
Definition f32_sub : float32 → float32 → float32 := SFsub 24 128.
Definition f32_mul : float32 → float32 → float32 := SFmul 24 128.
Definition f32_div : float32 → float32 → float32 := SFdiv 24 128.
Definition f32_eqb : float32 → float32 → bool := SFeqb.
(** [f32_gtb a b] is Go's [a > b]. *)
Definition f32_gtb (a b : float32) : bool := SFltb b a.

Definition f32_zero : float32 := S754_zero false.

(** ** Outcomes: a value, or a panic *)

Inductive Error : Type :=
  | SizeMismatch
  | MissingAttributes
  | AttributeSizeMismatch
  | TooManyVertices
  | IndexOutOfBounds
  | ObsoleteVertices
  | IndexCountMismatch
  | UnsupportedPrimitiveType
  | UnknownShader
  | ShaderAttributeMismatch
  | IncompatiblePrimitiveType
  | IncompatibleAttributes
  | NotIndexable
  | IncompatibleIndexing
  | IncompatibleBufferLayout
  | UnsupportedBufferLayout
  | GlyphLookupMiss
  | RuntimePanic.

Inductive Res (A : Type) : Type :=
  | Ok (a : A)
  | Panic (e : Error).
Arguments Ok {A} a.
Arguments Panic {A} e.

#[global] Instance Res_ret : MRet Res := λ A a, Ok a.
#[global] Instance Res_bind : MBind Res := λ A B k m,
  match m with
  | Ok a => k a
  | Panic e => Panic e
  end.

(** Go's [a / b] on [int]: a run-time panic when [b] is zero. *)
Definition go_div (a b : Z) : Res Z :=
  if b =? 0 then Panic RuntimePanic else Ok (Z.quot a b).

(** Go's [s[lo:]] and [s[:hi]].  The upper bound of [s[:hi]] is the
    capacity; every slice cut this way in the sources has its length as
    capacity or is cut at most at its length. *)
Definition slice_from {A : Type} (s : list A) (lo : Z) : Res (list A) :=
  if (0 <=? lo) && (lo <=? len s) then Ok (drop (Z.to_nat lo) s)
  else Panic RuntimePanic.

Definition slice_to {A : Type} (s : list A) (hi : Z) : Res (list A) :=
  if (0 <=? hi) && (hi <=? len s) then Ok (take (Z.to_nat hi) s)
  else Panic RuntimePanic.

(** ** Package [assert] *)

(** Modelled from the spec: what a failed assertion does is decided in
    package [assert], which is not among the sources.  The spec has the
    source signal invalid geometry "via assertion calls that abort/report".
    The callers are written for both: geometry.go ignores the result of
    [assert.True], text.go:95 and geometry.go:191 branch on it. *)
Inductive FailPolicy : Type :=
  | Abort    (* a failed assertion raises: the operation stops there *)
  | Report.  (* a failed assertion is reported and [false] is returned *)

(** Modelled from the spec: package [assert] ([assert.True], [assert.Func],
    [assert.Fail]) is not among the sources.  The spec has the assertion
    calls "abort/report": a violated precondition "raises a descriptive,
    categorized error", while a glyph lookup miss is "reported as a
    recoverable lookup failure".  [assert.True] returns its condition when
    it returns. *)
Definition assert_True (p : FailPolicy) (cond : bool) (e : Error) : Res bool :=
  if cond then Ok true
  else match p with
       | Abort => Panic e
       | Report => Ok false
       end.

(** Modelled from the spec: [assert.Func] runs the closure and asserts its
    result; the closure's result is passed in evaluated. *)
Definition assert_Func (p : FailPolicy) (result : bool) (e : Error) : Res bool :=
  assert_True p result e.

(** Modelled from the spec: [assert.Fail] is an assertion that always fails. *)
Definition assert_Fail (p : FailPolicy) (e : Error) : Res bool :=
  assert_True p false e.

(** ** Declarations of package [nora] used by geometry.go *)

(** [PrimitiveType] is a [gl.Enum]; the constants are OpenGL's. *)
Definition PrimitiveType : Type := Z.
Definition gl_POINTS : PrimitiveType := 0.
Definition gl_LINES : PrimitiveType := 1.
Definition gl_LINE_LOOP : PrimitiveType := 2.
Definition gl_LINE_STRIP : PrimitiveType := 3.
Definition gl_TRIANGLES : PrimitiveType := 4.
Definition gl_TRIANGLE_STRIP : PrimitiveType := 5.
Definition gl_TRIANGLE_FAN : PrimitiveType := 6.

(** Modelled from the spec: the declaration of [BufferLayout] is not among
    the sources; the spec has the enum {Interleaved, Separate}. *)
Inductive BufferLayout : Type :=
  | InterleavedBuffer
  | SeparateBuffer.

#[global] Instance BufferLayout_eq_dec : EqDecision BufferLayout.
Proof. solve_decision. Defined.

(** Modelled from the spec: the shader registry ([engine.Shaders.resolve],
    [attributeTypes], [vaTypePropertyMapping]) is not among the sources.
    "Given an opaque key, returns (optionally) a descriptor exposing a
    mapping from attribute name to a type that resolves to a component
    count."  A vertex-attribute type is a number; [components] reads the
    table, at the zero value too. *)
Record ShaderProgram : Type := mkShaderProgram {
  attributeTypes : gmap string Z
}.

(** Modelled from the spec: the process-wide [engine] with its shader
    registry, as "an injected capability": the resolver and the table of
    component counts. *)
Record Engine : Type := mkEngine {
  resolve : string → option ShaderProgram;
  components : Z → Z
}.

(** ** geometry.go *)

Record Geometry : Type := mkGeometry {
  vertexCount : Z;
  vertices : list float32;
  indices : option (list Z);
  primitiveType : PrimitiveType;
  vertexAttributes : list string;
  bufferLayout : BufferLayout
}.

(** The zero value [Geometry{}]. *)
Definition emptyGeometry : Geometry :=
  mkGeometry 0 [] None 0 [] InterleavedBuffer.

(** [len(indices)], which is zero for [nil]. *)
Definition lenI (indices : option (list Z)) : Z :=
  match indices with
  | None => 0
  | Some l => len l
  end.

(** Go's [append(s, more...)] on a slice that may be [nil]. *)
Definition go_append (s : option (list Z)) (more : list Z) : option (list Z) :=
  match s with
  | None => match more with [] => None | _ => Some more end
  | Some l => Some (l ++ more)
  end.

Definition elems (s : option (list Z)) : list Z := default [] s.

Fixpoint equalElements (a b : list string) : bool :=
  match a, b with
  | x :: a', y :: b' => if String.eqb x y then equalElements a' b' else false
  | _, _ => true
  end.

Definition equalStringSlice (a b : list string) : bool :=
  if negb (len a =? len b) then false else equalElements a b.

Section Validation.
Variable p : FailPolicy.

(** geometry.go:117-124.  Returns [vertexSize]. *)
Definition checkVertexData (vertexCount : Z) (vertices : list float32) : Res Z :=
  if 0 <? vertexCount then
    let vertexSize := Z.quot (len vertices) vertexCount in
    assert_True p
      (f32_eqb (f32_div (f32_of_int (len vertices)) (f32_of_int vertexCount))
               (f32_of_int vertexSize))
      SizeMismatch;;
    mret vertexSize
  else
    assert_True p (len vertices =? 0) SizeMismatch;;
    mret 0.

(** geometry.go:125-130. *)
Definition checkAttributes (vertexCount vertexSize : Z)
    (vertexAttributes : list string) : Res unit :=
  if 0 <? vertexCount then
    assert_True p (0 <? len vertexAttributes) MissingAttributes;;
    assert_True p (len vertexAttributes <=? vertexSize) AttributeSizeMismatch;;
    mret ()
  else mret ().

(** The closure of geometry.go:137-152: one pass over the indices that
    updates [minIdx], [maxIdx] and [okay]. *)
Definition scanIndex (vertexCount : Z) (acc : Z * Z * bool) (i : Z) : Z * Z * bool :=
  let '(minIdx, maxIdx, okay) := acc in
  let idx := i in
  let maxIdx := if maxIdx <? idx then idx else maxIdx in
  let minIdx := if idx <? minIdx then idx else minIdx in
  let okay := if vertexCount <=? idx then false else okay in
  (minIdx, maxIdx, okay).

Definition scanIndices (vertexCount : Z) (indices : list Z) : Z * Z * bool :=
  foldl (scanIndex vertexCount) (vertexCount, -1, true) indices.

(** geometry.go:132-159. *)
Definition checkIndices (vertexCount : Z) (indices : option (list Z)) : Res unit :=
  let indexCount := lenI indices in
  if 0 <? indexCount then
    assert_True p (vertexCount <=? 65535) TooManyVertices;;
    let '(minIdx, maxIdx, okay) := scanIndices vertexCount (elems indices) in
    assert_Func p okay IndexOutOfBounds;;
    let obsolete := vertexCount - 1 - maxIdx in
    assert_True p (obsolete <=? 0) ObsoleteVertices;;
    assert_True p (minIdx <=? 0) ObsoleteVertices;;
    assert_True p (vertexCount <=? indexCount) ObsoleteVertices;;
    mret ()
  else mret ().

(** geometry.go:161-164. *)
Definition effectiveIndexCount (vertexCount : Z) (indices : option (list Z)) : Z :=
  let indexCount := lenI indices in
  if indexCount =? 0 then vertexCount else indexCount.

(** The [switch] of geometry.go:167-182. *)
Definition checkPrimitive (primitiveType : PrimitiveType) (effectiveIndexCount : Z)
    : Res unit :=
  if primitiveType =? gl_POINTS then mret ()
  else if primitiveType =? gl_LINE_STRIP then
    assert_True p (1 <=? effectiveIndexCount) IndexCountMismatch;; mret ()
  else if primitiveType =? gl_LINE_LOOP then mret ()
  else if primitiveType =? gl_LINES then
    assert_True p (Z.rem effectiveIndexCount 2 =? 0) IndexCountMismatch;; mret ()
  else if primitiveType =? gl_TRIANGLE_STRIP then
    assert_True p (2 <=? effectiveIndexCount) IndexCountMismatch;; mret ()
  else if primitiveType =? gl_TRIANGLE_FAN then
    assert_True p (2 <=? effectiveIndexCount) IndexCountMismatch;; mret ()
  else if primitiveType =? gl_TRIANGLES then
    assert_True p (Z.rem effectiveIndexCount 3 =? 0) IndexCountMismatch;; mret ()
  else
    assert_Fail p UnsupportedPrimitiveType;; mret ().

(** The loop of geometry.go:196-201: sums the component counts and
    asserts that every attribute is known to the shader. *)
Fixpoint checkShaderAttributes (engine : Engine) (sProg : ShaderProgram)
    (vertexAttributes : list string) (expectedVertexSize : Z) : Res Z :=
  match vertexAttributes with
  | [] => mret expectedVertexSize
  | attr :: rest =>
      let typ := default 0 (attributeTypes sProg !! attr) in
      let ok := bool_decide (is_Some (attributeTypes sProg !! attr)) in
      let expectedVertexSize := expectedVertexSize + components engine typ in
      assert_True p ok ShaderAttributeMismatch;;
      checkShaderAttributes engine sProg rest expectedVertexSize
  end.

(** geometry.go:186-210. *)
Definition checkShader (engine : Engine) (sProgKey : string)
    (vertexCount vertexSize : Z) (vertexAttributes : list string) : Res unit :=
  if String.eqb sProgKey "" then mret ()
  else
    let sProg := resolve engine sProgKey in
    found ← assert_True p (bool_decide (is_Some sProg)) UnknownShader;
    match sProg with
    | None => mret ()
    | Some sProg =>
        if negb found then mret () else
        expectedVertexSize ← checkShaderAttributes engine sProg vertexAttributes 0;
        (if (0 <? vertexCount)
            && (len vertexAttributes <? Z.of_nat (size (attributeTypes sProg)))
         then assert_Fail p ShaderAttributeMismatch
         else mret true);;
        (if 0 <? vertexCount
         then assert_True p (vertexSize =? expectedVertexSize) ShaderAttributeMismatch
         else mret true);;
        mret ()
    end.

Definition AssertValidGeometry (engine : Engine) (sProgKey : string)
    (vertexCount : Z) (vertices : list float32) (indices : option (list Z))
    (primitiveType : PrimitiveType) (vertexAttributes : list string) : Res unit :=
  vertexSize ← checkVertexData vertexCount vertices;
  checkAttributes vertexCount vertexSize vertexAttributes;;
  checkIndices vertexCount indices;;
  checkPrimitive primitiveType (effectiveIndexCount vertexCount indices);;
  checkShader engine sProgKey vertexCount vertexSize vertexAttributes.
End Validation.

(** ** Methods on [*Geometry]

    A method is a transformer of the receiver that also yields the outcome;
    after a panic the receiver is as the statements before it left it. *)

Definition GeomM (A : Type) : Type := Geometry → Geometry * Res A.

#[global] Instance GeomM_ret : MRet GeomM := λ A a g, (g, Ok a).
#[global] Instance GeomM_bind : MBind GeomM := λ A B k m g,
  match m g with
  | (g', Ok a) => k a g'
  | (g', Panic e) => (g', Panic e)
  end.

Definition getG : GeomM Geometry := λ g, (g, Ok g).
Definition liftR {A : Type} (r : Res A) : GeomM A := λ g, (g, r).

Definition set_vertexCount (n : Z) : GeomM unit := λ g,
  (mkGeometry n (vertices g) (indices g) (primitiveType g)
              (vertexAttributes g) (bufferLayout g), Ok ()).
Definition set_vertices (v : list float32) : GeomM unit := λ g,
  (mkGeometry (vertexCount g) v (indices g) (primitiveType g)
              (vertexAttributes g) (bufferLayout g), Ok ()).
Definition set_indices (i : option (list Z)) : GeomM unit := λ g,
  (mkGeometry (vertexCount g) (vertices g) i (primitiveType g)
              (vertexAttributes g) (bufferLayout g), Ok ()).
Definition set_primitiveType (t : PrimitiveType) : GeomM unit := λ g,
  (mkGeometry (vertexCount g) (vertices g) (indices g) t
              (vertexAttributes g) (bufferLayout g), Ok ()).
Definition set_vertexAttributes (a : list string) : GeomM unit := λ g,
  (mkGeometry (vertexCount g) (vertices g) (indices g) (primitiveType g)
              a (bufferLayout g), Ok ()).
Definition set_bufferLayout (b : BufferLayout) : GeomM unit := λ g,
  (mkGeometry (vertexCount g) (vertices g) (indices g) (primitiveType g)
              (vertexAttributes g) b, Ok ()).

(** The loop of geometry.go:88-90: [s[i] += d] for [i] from [firstIdx]. *)
Definition offsetIndicesFrom (firstIdx : Z) (d : Z) (s : option (list Z))
    : option (list Z) :=
  match s with
  | None => None
  | Some l =>
      Some (take (Z.to_nat firstIdx) l
            ++ map (λ x, u16 (x + d)) (drop (Z.to_nat firstIdx) l))
  end.

(** [indices[0]]: a run-time panic on an empty (or nil) slice. *)
Definition firstIndex (indices : option (list Z)) : Res Z :=
  match elems indices with
  | [] => Panic RuntimePanic
  | i :: _ => Ok i
  end.

Section Methods.
Variable p : FailPolicy.
Variable engine : Engine.

(** geometry.go:28-36. *)
Definition Geometry_Set (vertexCount' : Z) (vertices' : list float32)
    (indices' : option (list Z)) (primitiveType' : PrimitiveType)
    (vertexAttributes' : list string) (bufferLayout' : BufferLayout) : GeomM unit :=
  liftR (AssertValidGeometry p engine "" vertexCount' vertices' indices'
           primitiveType' vertexAttributes');;
  set_vertexCount vertexCount';;
  set_vertices vertices';;
  set_indices indices';;
  set_primitiveType primitiveType';;
  set_vertexAttributes vertexAttributes';;
  set_bufferLayout bufferLayout'.

(** geometry.go:59-82, the stitching of two triangle strips. *)
Definition stitchTriangleStrip (vertexCount' : Z) (vertices' : list float32)
    (indices' : option (list Z)) : GeomM unit :=
  (match indices' with
   | None =>
       vertexSize ← liftR (go_div (len vertices') vertexCount');
       g ← getG;
       lastVertex ← liftR (slice_from (vertices g) (len (vertices g) - vertexSize));
       firstVertex ← liftR (slice_to vertices' vertexSize);
       g ← getG; set_vertices (vertices g ++ lastVertex);;
       g ← getG; set_vertices (vertices g ++ firstVertex);;
       g ← getG;
       if negb (Z.rem (vertexCount g) 2 =? 0)
       then set_vertices (vertices g ++ firstVertex)
       else mret ()
   | Some _ =>
       let lastIdx := u16 0 in
       i0 ← liftR (firstIndex indices');
       g ← getG;
       let firstIdx := u16 (i0 + u16 (vertexCount g)) in
       set_indices (go_append (indices g) [lastIdx; firstIdx]);;
       g ← getG;
       if negb (Z.rem (vertexCount g) 2 =? 0)
       then set_indices (go_append (indices g) [firstIdx])
       else mret ()
   end);;
  g ← getG;
  set_vertexCount (vertexCount g + (2 + Z.rem (vertexCount g) 2)).

(** geometry.go:44-57: the incoming run is validated on its own, then
    checked against the receiver [g]. *)
Definition appendChecks (g : Geometry) (vertexCount' : Z)
    (vertices' : list float32) (indices' : option (list Z))
    (primitiveType' : PrimitiveType) (vertexAttributes' : list string)
    (bufferLayout' : BufferLayout) : Res unit :=
  AssertValidGeometry p engine "" vertexCount' vertices' indices'
    primitiveType' vertexAttributes';;
  assert_True p (primitiveType g =? primitiveType') IncompatiblePrimitiveType;;
  assert_True p (equalStringSlice (vertexAttributes g) vertexAttributes')
    IncompatibleAttributes;;
  assert_True p (vertexCount g + vertexCount' + 2 <=? 65535) NotIndexable;;
  assert_True p (eqb (bool_decide (is_Some (indices g)))
                     (bool_decide (is_Some indices')))
    IncompatibleIndexing;;
  (if 1 <? len vertexAttributes' then
     assert_True p (bool_decide (bufferLayout g = bufferLayout'))
       IncompatibleBufferLayout;;
     assert_True p (bool_decide (bufferLayout' = InterleavedBuffer))
       UnsupportedBufferLayout;;
     mret ()
   else mret ());;
  assert_True p
    ((primitiveType' =? gl_POINTS) || (primitiveType' =? gl_LINES)
     || (primitiveType' =? gl_TRIANGLES)
     || (primitiveType' =? gl_TRIANGLE_STRIP))
    UnsupportedPrimitiveType;;
  mret ().

(** geometry.go:84-91: the incoming data is appended and its indices are
    offset by the receiver's vertex count at that point. *)
Definition appendData (vertexCount' : Z) (vertices' : list float32)
    (indices' : option (list Z)) : GeomM unit :=
  g ← getG;
  let firstIdx := lenI (indices g) in
  set_vertices (vertices g ++ vertices');;
  g ← getG; set_indices (go_append (indices g) (elems indices'));;
  g ← getG;
  set_indices (offsetIndicesFrom firstIdx (u16 (vertexCount g)) (indices g));;
  g ← getG;
  set_vertexCount (vertexCount g + vertexCount').

(** geometry.go:39-93. *)
Definition Geometry_Append (vertexCount' : Z) (vertices' : list float32)
    (indices' : option (list Z)) (primitiveType' : PrimitiveType)
    (vertexAttributes' : list string) (bufferLayout' : BufferLayout) : GeomM unit :=
  g ← getG;
  if vertexCount g =? 0 then
    Geometry_Set vertexCount' vertices' indices' primitiveType'
                 vertexAttributes' bufferLayout'
  else
    liftR (appendChecks g vertexCount' vertices' indices' primitiveType'
             vertexAttributes' bufferLayout');;
    (if primitiveType' =? gl_TRIANGLE_STRIP
     then stitchTriangleStrip vertexCount' vertices' indices'
     else mret ());;
    appendData vertexCount' vertices' indices'.

(** geometry.go:96-99. *)
Definition Geometry_AppendGeometry (other : Geometry) : GeomM unit :=
  Geometry_Append (vertexCount other) (vertices other) (indices other)
    (primitiveType other) (vertexAttributes other) (bufferLayout other).

(** geometry.go:21-25. *)
Definition NewGeometry (vertexCount' : Z) (vertices' : list float32)
    (indices' : option (list Z)) (primitiveType' : PrimitiveType)
    (vertexAttributes' : list string) (bufferLayout' : BufferLayout)
    : Geometry * Res unit :=
  Geometry_Set vertexCount' vertices' indices' primitiveType'
    vertexAttributes' bufferLayout' emptyGeometry.
End Methods.


(** ** Declarations used by builtin/shapes/text.go *)

Definition rune : Type := Z.
Definition Vec2i : Type := (Z * Z)%type.
Definition Vec2f : Type := (float32 * float32)%type.

(** The glyph record that the font loader fills in: advance width, offset,
    position and size of the glyph rectangle. *)
Record Char : Type := mkChar {
  Width : Z;
  Offset : Vec2i;
  Pos : Vec2i;
  Size : Vec2i
}.

(** Modelled from the spec: the declaration of [nora.Font] and its methods
    [Char], [TexCoord], [AvgWidth] and [TextureKey] are not among the
    sources.  "A font description: line metrics (height, ascender,
    descender), average glyph width, per-code-point glyph metrics, and a
    function mapping a code point to normalized texture coordinates
    (top-left, bottom-right corners)."  [Chars] is the map the loader
    builds; [f.Char(r)] is the lookup in it. *)
Record Font : Type := mkFont {
  Height : Z;
  Ascender : Z;
  Descender : Z;
  Chars : gmap Z Char;
  AvgWidth : float32;
  TexCoord : rune → Vec2f * Vec2f;
  TextureKey : string
}.

Record Rectf : Type := mkRectf {
  Min : Vec2f;
  Max : Vec2f
}.

(** Modelled from the spec: [color.Color] is not among the sources; a colour
    is the four floats that [Uniform4fColor] uploads. *)
Record Color : Type := mkColor {
  R : float32;
  G : float32;
  B : float32;
  A : float32
}.

(** Modelled from the spec: [color.White]. *)
Definition White : Color := mkColor (f32_of_int 1) (f32_of_int 1) (f32_of_int 1) (f32_of_int 1).

(** Modelled from the spec: [nora.Material] and [nora.Mesh] are not among the
    sources.  A material is a shader key with its texture bindings and
    uniforms; a mesh is the "mesh/draw sink" that "accepts (vertexCount,
    vertex floats, indices, primitiveType, attribute names, buffer layout)",
    and the regenerated geometry "is pushed into the owned Geometry container
    via Set, which re-validates it against the bound shader's declared
    attributes". *)
Record Material : Type := mkMaterial {
  shaderKey : string;
  textures : gmap string string;
  uniforms : gmap string Color
}.

(** Modelled from the spec: [nora.Mesh], the material and the geometry it
    was handed last. *)
Record Mesh : Type := mkMesh {
  material : Material;
  geometry : Geometry
}.

(** Modelled from the spec: [nora.NewMaterial], a material for a shader key
    without bindings. *)
Definition NewMaterial (sProgKey : string) : Material := mkMaterial sProgKey ∅ ∅.

(** Modelled from the spec: [Material.AddTextureBinding] binds a texture key
    to a sampler name. *)
Definition AddTextureBinding (name key : string) (mat : Material) : Material :=
  mkMaterial (shaderKey mat) (<[name := key]> (textures mat)) (uniforms mat).

(** Modelled from the spec: [Material.Uniform4fColor] sets a colour uniform
    of the material ("color" is "a material uniform"). *)
Definition Uniform4fColor (name : string) (c : Color) (mat : Material) : Material :=
  mkMaterial (shaderKey mat) (textures mat) (<[name := c]> (uniforms mat)).

(** Modelled from the spec: [nora.NewMesh], a mesh without vertex data. *)
Definition NewMesh (mat : Material) : Mesh := mkMesh mat emptyGeometry.

(** Modelled from the spec: [Mesh.SetVertexData] validates what it is handed
    against the shader of its material, then keeps it. *)
Definition Mesh_SetVertexData (p : FailPolicy) (engine : Engine)
    (vertexCount' : Z) (vertices' : list float32) (indices' : option (list Z))
    (primitiveType' : PrimitiveType) (vertexAttributes' : list string)
    (bufferLayout' : BufferLayout) (m : Mesh) : Res Mesh :=
  AssertValidGeometry p engine (shaderKey (material m)) vertexCount' vertices'
    indices' primitiveType' vertexAttributes';;
  mret (mkMesh (material m)
          (mkGeometry vertexCount' vertices' indices' primitiveType'
                      vertexAttributes' bufferLayout')).

(** Modelled from the spec: the key [shader.COL_TEX_2D] of the built-in
    shader with the attributes [position] and [texCoord]. *)
Definition COL_TEX_2D : string := "COL_TEX_2D".

(** ** builtin/shapes/text.go *)

(** The embedded [nora.Transform] and the [Draw] hook are left out: they are
    not among the sources and [update] and the setters do not touch them.
    What a panic in the middle of [update] leaves of the receiver is not
    modelled either: a method yields the new [Text] or a panic. *)
Record Text : Type := mkText {
  font : Font;
  tabWidth : Z;
  tabWidthPt : float32;
  mesh : Mesh;
  text : list rune;
  bounds : Rectf;
  color : Color
}.

(** text.go:56-59. *)
Definition FontScaling (f : Font) : float32 :=
  f32_div (f32_of_int 1) (f32_of_int (Height f)).

(** The variables of the loop of text.go:77-126; [maxX] is
    [m.bounds.Max[0]]. *)
Record Cursor : Type := mkCursor {
  origin : float32;
  baseline : float32;
  maxX : float32;
  vtx : Z;
  idx : Z;
  vertexBuf : list float32;
  indexBuf : list Z
}.

(** What [copy(dst[off:], src)] leaves in [dst]: as many elements of [src]
    as fit are written from [off] on. *)
Definition overwrite {A : Type} (dst : list A) (off : Z) (src : list A) : list A :=
  take (Z.to_nat off) dst
  ++ take (Z.to_nat (len dst - off)) src
  ++ drop (Z.to_nat off + length src) dst.

(** Go's [copy(dst[off:], src)]: a run-time panic when [off] is beyond the
    slice. *)
Definition copy_at {A : Type} (dst : list A) (off : Z) (src : list A) : Res (list A) :=
  if (0 <=? off) && (off <=? len dst) then Ok (overwrite dst off src)
  else Panic RuntimePanic.

Section Layout.
Variable p : FailPolicy.
Variable f : Font.
Variable tabWidthPt' : float32.

Let scale : float32 := FontScaling f.

(** The four vertices of text.go:105-117. *)
Definition glyphQuad (st : Cursor) (r : rune) (c : Char) : list float32 :=
  let xl := f32_add (origin st) (f32_mul (f32_of_int (Offset c).1) scale) in
  let xr := f32_add xl (f32_mul (f32_of_int (Size c).1) scale) in
  let yt := f32_add (baseline st) (f32_mul (f32_of_int (Offset c).2) scale) in
  let yb := f32_sub yt (f32_mul (f32_of_int (Size c).2) scale) in
  let tl := (TexCoord f r).1 in
  let br := (TexCoord f r).2 in
  [ xl; yb; tl.1; br.2;
    xr; yb; br.1; br.2;
    xr; yt; br.1; tl.2;
    xl; yt; tl.1; tl.2 ].

(** The six indices of text.go:118-121, in [uint16]. *)
Definition glyphIndices (vtx : Z) : list Z :=
  [ vtx; u16 (vtx + 1); u16 (vtx + 2);
    u16 (vtx + 2); u16 (vtx + 3); vtx ].

(** One iteration of the loop of text.go:77-126. *)
Definition layoutRune (st : Cursor) (r : rune) : Res Cursor :=
  if r =? 13 then mret st
  else if r =? 10 then
    let maxX' := if f32_gtb (origin st) (maxX st) then origin st else maxX st in
    mret (mkCursor f32_zero
            (f32_sub (baseline st) (f32_mul (f32_of_int (Height f)) scale))
            maxX' (vtx st) (idx st) (vertexBuf st) (indexBuf st))
  else if r =? 9 then
    mret (mkCursor (f32_add (origin st) (f32_mul tabWidthPt' scale))
            (baseline st) (maxX st) (vtx st) (idx st)
            (vertexBuf st) (indexBuf st))
  else
    let c := Chars f !! r in
    ok ← assert_True p (bool_decide (is_Some c)) GlyphLookupMiss;
    match c with
    | None => mret st
    | Some c =>
        if negb ok then mret st else
        vertexBuf' ← copy_at (vertexBuf st) (u16 (vtx st * 4)) (glyphQuad st r c);
        indexBuf' ← copy_at (indexBuf st) (idx st) (glyphIndices (vtx st));
        mret (mkCursor (f32_add (origin st) (f32_mul (f32_of_int (Width c)) scale))
                (baseline st) (maxX st)
                (u16 (vtx st + 4)) (idx st + 6) vertexBuf' indexBuf')
    end.

Fixpoint layoutRunes (st : Cursor) (runes : list rune) : Res Cursor :=
  match runes with
  | [] => mret st
  | r :: rest => st' ← layoutRune st r; layoutRunes st' rest
  end.

(** The state before the loop, text.go:65-75. *)
Definition layoutStart (text' : list rune) : Cursor :=
  mkCursor f32_zero f32_zero f32_zero 0 0
    (replicate (Z.to_nat (len text' * 4 * 4)) f32_zero)
    (replicate (Z.to_nat (len text' * 6)) 0).

(** What [update] hands to the mesh, and the bounds it leaves. *)
Record Layout : Type := mkLayout {
  outVertexCount : Z;
  outVertices : list float32;
  outIndices : list Z;
  outBounds : Rectf
}.

(** text.go:127-136, after the loop. *)
Definition layoutFinish (st : Cursor) : Res Layout :=
  let maxX' := if f32_gtb (origin st) (maxX st) then origin st else maxX st in
  let minY := f32_add (baseline st) (f32_mul (f32_of_int (Descender f)) scale) in
  let maxY := f32_mul (f32_of_int (Ascender f)) scale in
  vertices' ← slice_to (vertexBuf st) (u16 (vtx st * 4));
  indices' ← slice_to (indexBuf st) (idx st);
  let vertexCount' := vtx st in
  mret (mkLayout vertexCount' vertices' indices'
          (mkRectf (f32_zero, minY) (maxX', maxY))).

(** text.go:62-136: everything [update] computes from the font, the tab
    width in points and the runes. *)
Definition layoutText (text' : list rune) : Res Layout :=
  st ← layoutRunes (layoutStart text') text';
  layoutFinish st.
End Layout.

Arguments outVertexCount : clear implicits.
Arguments outVertices : clear implicits.
Arguments outIndices : clear implicits.
Arguments outBounds : clear implicits.

Definition positionTexCoord : list string := ["position"; "texCoord"]%string.

Section TextMethods.
Variable p : FailPolicy.
Variable engine : Engine.

(** text.go:61-139. *)
Definition Text_update (m : Text) : Res Text :=
  out ← layoutText p (font m) (tabWidthPt m) (text m);
  mesh' ← Mesh_SetVertexData p engine (outVertexCount out) (outVertices out)
            (Some (outIndices out)) gl_TRIANGLES positionTexCoord
            InterleavedBuffer (mesh m);
  mret (mkText (font m) (tabWidth m) (tabWidthPt m) mesh' (text m)
          (outBounds out) (color m)).

(** text.go:182-185. *)
Definition Text_SetColor (c : Color) (m : Text) : Text :=
  mkText (font m) (tabWidth m) (tabWidthPt m)
    (mkMesh (Uniform4fColor "color" c (material (mesh m))) (geometry (mesh m)))
    (text m) (bounds m) c.

(** text.go:31-48. *)
Definition NewText (font' : Font) (text' : list rune) : Res Text :=
  let mat := AddTextureBinding "sampler" (TextureKey font') (NewMaterial COL_TEX_2D) in
  let txt := mkText font' 4 (f32_mul (f32_of_int 4) (AvgWidth font'))
               (NewMesh mat) text'
               (mkRectf (f32_zero, f32_zero) (f32_zero, f32_zero)) White in
  txt ← Text_update txt;
  mret (Text_SetColor White txt).

(** text.go:142-145. *)
Definition Text_Set (text' : list rune) (m : Text) : Res Text :=
  Text_update (mkText (font m) (tabWidth m) (tabWidthPt m) (mesh m) text'
                 (bounds m) (color m)).

(** text.go:159-162. *)
Definition Text_SetFont (font' : Font) (m : Text) : Res Text :=
  Text_update (mkText font' (tabWidth m) (tabWidthPt m) (mesh m) (text m)
                 (bounds m) (color m)).

(** text.go:170-174. *)
Definition Text_SetTabWidth (tabWidth' : Z) (m : Text) : Res Text :=
  Text_update (mkText (font m) tabWidth'
                 (f32_mul (f32_of_int tabWidth') (AvgWidth (font m)))
                 (mesh m) (text m) (bounds m) (color m)).
End TextMethods.
(** ** Concrete data used by the examples *)

Definition noEngine : Engine := mkEngine (λ _, None) (λ _, 0).
Definition fl (n : Z) : float32 := f32_of_int n.
Definition position1 : list string := ["position"%string].

(** An indexed triangle strip of three one-float vertices. *)
Definition strip3 : Geometry :=
  mkGeometry 3 [fl 1; fl 2; fl 3] (Some [0; 1; 2]) gl_TRIANGLE_STRIP
             position1 InterleavedBuffer.

(** Two triangles' worth of non-indexed one-float vertices. *)
Definition triangles3 : Geometry :=
  mkGeometry 3 [fl 1; fl 2; fl 3] None gl_TRIANGLES position1 InterleavedBuffer.

(** ** The validator under [Abort] *)

(** What geometry.go:167-182 accepts, per primitive type. *)
Definition primitiveRule (primitiveType : PrimitiveType) (n : Z) : Prop :=
  primitiveType = gl_POINTS
  ∨ primitiveType = gl_LINE_LOOP
  ∨ (primitiveType = gl_LINE_STRIP ∧ 1 ≤ n)
  ∨ (primitiveType = gl_LINES ∧ (2 | n))
  ∨ (primitiveType = gl_TRIANGLES ∧ (3 | n))
  ∨ ((primitiveType = gl_TRIANGLE_STRIP ∨ primitiveType = gl_TRIANGLE_FAN) ∧ 2 ≤ n).

(** The rule in the words of the specification: "Lines→2, Triangles→3,
    LineStrip/TriangleStrip/TriangleFan→≥2, Points→any", any other type
    unsupported. *)
Definition specPrimitiveRule (primitiveType : PrimitiveType) (n : Z) : Prop :=
  primitiveType = gl_POINTS
  ∨ (primitiveType = gl_LINES ∧ (2 | n))
  ∨ (primitiveType = gl_TRIANGLES ∧ (3 | n))
  ∨ ((primitiveType = gl_LINE_STRIP ∨ primitiveType = gl_TRIANGLE_STRIP
      ∨ primitiveType = gl_TRIANGLE_FAN) ∧ 2 ≤ n).

(** The count in the words of the specification: "indices length if
    present, else vertexCount". *)
Definition specEffectiveIndexCount (vertexCount : Z) (indices : option (list Z)) : Z :=
  match indices with
  | Some l => len l
  | None => vertexCount
  end.

(** The checks of geometry.go:117-159, which come before the [switch]. *)
Definition selfConsistent (vertexCount : Z) (vertices : list float32)
    (indices : option (list Z)) (vertexAttributes : list string) : Prop :=
  ∃ vertexSize,
    checkVertexData Abort vertexCount vertices = Ok vertexSize
    ∧ checkAttributes Abort vertexCount vertexSize vertexAttributes = Ok ()
    ∧ checkIndices Abort vertexCount indices = Ok ().


(** ** Mutations of a geometry, and the properties asked of them *)

(** The three mutating calls of geometry.go, with their arguments. *)
Inductive Mutation : Type :=
  | DoSet (vertexCount' : Z) (vertices' : list float32) (indices' : option (list Z))
      (primitiveType' : PrimitiveType) (vertexAttributes' : list string)
      (bufferLayout' : BufferLayout)
  | DoAppend (vertexCount' : Z) (vertices' : list float32) (indices' : option (list Z))
      (primitiveType' : PrimitiveType) (vertexAttributes' : list string)
      (bufferLayout' : BufferLayout)
  | DoAppendGeometry (other : Geometry).

Definition perform (p : FailPolicy) (engine : Engine) (op : Mutation) : GeomM unit :=
  match op with
  | DoSet n vs idx t attrs bl => Geometry_Set p engine n vs idx t attrs bl
  | DoAppend n vs idx t attrs bl => Geometry_Append p engine n vs idx t attrs bl
  | DoAppendGeometry other => Geometry_AppendGeometry p engine other
  end.

(** The primitive types that geometry.go:57 lets through. *)
Definition appendable (primitiveType' : PrimitiveType) : Prop :=
  primitiveType' = gl_POINTS ∨ primitiveType' = gl_LINES
  ∨ primitiveType' = gl_TRIANGLES ∨ primitiveType' = gl_TRIANGLE_STRIP.

(** The append-compatibility preconditions of geometry.go:46-57. *)
Definition compatible (g : Geometry) (vertexCount' : Z) (indices' : option (list Z))
    (primitiveType' : PrimitiveType) (vertexAttributes' : list string)
    (bufferLayout' : BufferLayout) : Prop :=
  primitiveType g = primitiveType'
  ∧ vertexAttributes g = vertexAttributes'
  ∧ vertexCount g + vertexCount' + 2 ≤ 65535
  ∧ (is_Some (indices g) ↔ is_Some indices')
  ∧ (1 < len vertexAttributes' →
     bufferLayout g = bufferLayout' ∧ bufferLayout' = InterleavedBuffer)
  ∧ appendable primitiveType'.

(** The incoming run passes the validator. *)
Definition validRun (engine : Engine) (vertexCount' : Z) (vertices' : list float32)
    (indices' : option (list Z)) (primitiveType' : PrimitiveType)
    (vertexAttributes' : list string) : Prop :=
  AssertValidGeometry Abort engine "" vertexCount' vertices' indices'
    primitiveType' vertexAttributes' = Ok ().

(** A mutation whose arguments violate a validation precondition or, for an
    append onto a non-empty geometry, a compatibility precondition. *)
Definition violatesPrecondition (engine : Engine) (g : Geometry) (op : Mutation)
    : Prop :=
  match op with
  | DoSet n vs idx t attrs _ => ¬ validRun engine n vs idx t attrs
  | DoAppend n vs idx t attrs bl =>
      ¬ validRun engine n vs idx t attrs
      ∨ (vertexCount g ≠ 0 ∧ ¬ compatible g n idx t attrs bl)
  | DoAppendGeometry o =>
      ¬ validRun engine (vertexCount o) (vertices o) (indices o)
          (primitiveType o) (vertexAttributes o)
      ∨ (vertexCount g ≠ 0
         ∧ ¬ compatible g (vertexCount o) (indices o) (primitiveType o)
               (vertexAttributes o) (bufferLayout o))
  end.

(** The validity predicate of the specification: the vertex data is a whole
    number of vertices, and every index is below the vertex count. *)
Definition validState (g : Geometry) : Prop :=
  (∃ vertexSize : Z, len (vertices g) = vertexCount g * vertexSize)
  ∧ (∀ l, indices g = Some l → Forall (λ i, i < vertexCount g) l).

(** The last [n] and the first [n] floats of a vertex array. *)
Definition lastFloats (n : Z) (vs : list float32) : list float32 :=
  drop (Z.to_nat (len vs - n)) vs.
Definition firstFloats (n : Z) (vs : list float32) : list float32 :=
  take (Z.to_nat n) vs.

(** The values of an index slice are [uint16]s. *)
Definition uint16Slice (s : option (list Z)) : Prop :=
  Forall (λ i, 0 ≤ i < 65536) (elems s).

(** A zero-length run: no vertices, no vertex data, no indices. *)
Definition appendEmptyRun (p : FailPolicy) (engine : Engine)
    (indices' : option (list Z)) (primitiveType' : PrimitiveType)
    (vertexAttributes' : list string) (bufferLayout' : BufferLayout) : GeomM unit :=
  Geometry_Append p engine 0 [] indices' primitiveType' vertexAttributes'
    bufferLayout'.

(** The geometry that a successful [Set] on the zero value leaves. *)
Definition afterSet (vertexCount' : Z) (vertices' : list float32)
    (indices' : option (list Z)) (primitiveType' : PrimitiveType)
    (vertexAttributes' : list string) (bufferLayout' : BufferLayout) : Geometry :=
  (Geometry_Set Abort noEngine vertexCount' vertices' indices' primitiveType'
     vertexAttributes' bufferLayout' emptyGeometry).1.

(** ** Concrete fonts and texts *)

Definition rune_A : rune := 65.
Definition rune_B : rune := 66.
Definition rune_C : rune := 67.
Definition rune_newline : rune := 10.
Definition rune_tab : rune := 9.
Definition rune_return : rune := 13.

(** The text "AB\nC". *)
Definition text_AB_C : list rune := [rune_A; rune_B; rune_newline; rune_C].

(** A rune that is not a carriage return, a newline or a tab. *)
Definition printable (r : rune) : bool :=
  negb (r =? rune_return) && negb (r =? rune_newline) && negb (r =? rune_tab).

(** The runes for which [update] emits a quad: printable, with a glyph. *)
Definition emitsQuad (f : Font) (r : rune) : bool :=
  printable r && bool_decide (is_Some (Chars f !! r)).

Definition printableCount (runes : list rune) : Z :=
  len (filter (λ r, printable r = true) runes).

Definition quadCount (f : Font) (runes : list rune) : Z :=
  len (filter (λ r, emitsQuad f r = true) runes).

(** Every printable rune of the text has a glyph in the font. *)
Definition allGlyphsKnown (f : Font) (runes : list rune) : Prop :=
  Forall (λ r, printable r = true → is_Some (Chars f !! r)) runes.

Definition texCoordZero (r : rune) : Vec2f * Vec2f :=
  ((f32_zero, f32_zero), (f32_of_int 1, f32_of_int 1)).

Definition glyph10 : Char := mkChar 10 (1, 15) (0, 0) (8, 16).

(** A font of line height 20 whose glyphs 'A', 'B', 'C' advance by 10. *)
Definition font20 : Font :=
  mkFont 20 16 (-4)
    (<[rune_A := glyph10]> (<[rune_B := glyph10]> (<[rune_C := glyph10]> ∅)))
    (f32_of_int 10) texCoordZero "font20".

(** The same font with an average glyph width of 12 instead of 10. *)
Definition font20wide : Font :=
  mkFont 20 16 (-4) (Chars font20) (f32_of_int 12) texCoordZero "font20wide".

(** The triple that the specification makes the geometry a function of. *)
Definition sameInputs (m1 m2 : Text) : Prop :=
  font m1 = font m2 ∧ text m1 = text m2 ∧ tabWidth m1 = tabWidth m2.

(** The advance of a tab in the words of the specification:
    [tabWidth * font.averageGlyphWidth * scale]. *)
Definition specTabAdvance (m : Text) : float32 :=
  f32_mul (f32_mul (f32_of_int (tabWidth m)) (AvgWidth (font m)))
          (FontScaling (font m)).

(** The text "\tA". *)
Definition text_tab_A : list rune := [rune_tab; rune_A].

(** An engine in which the shader of the text material is loaded, with the
    two-component attributes [position] and [texCoord]; an attribute type is
    its component count. *)
Definition textEngine : Engine :=
  mkEngine
    (λ key, if String.eqb key COL_TEX_2D
            then Some (mkShaderProgram
                         (<["position"%string := 2]> (<["texCoord"%string := 2]> ∅)))
            else None)
    (λ typ, typ).

(** A text component before its first [update]. *)
Definition blankText (f : Font) : Text :=
  mkText f 4 (f32_mul (f32_of_int 4) (AvgWidth f))
    (NewMesh (NewMaterial COL_TEX_2D)) []
    (mkRectf (f32_zero, f32_zero) (f32_zero, f32_zero)) White.

(** A rune for which [font20] has no glyph. *)
Definition rune_question : rune := 63.

(** ** Notions used to state how the methods run *)

(** [reads m]: [m] never writes the receiver.  [total m]: [m] never panics.
    [atomic m]: when [m] panics, the receiver is as it was. *)
Definition reads {A : Type} (m : GeomM A) : Prop := ∀ g, (m g).1 = g.
Definition total {A : Type} (m : GeomM A) : Prop := ∀ g, ∃ a, (m g).2 = Ok a.
Definition atomic {A : Type} (m : GeomM A) : Prop :=
  ∀ g e, (m g).2 = Panic e → (m g).1 = g.

(** The same cursor over longer buffers. *)
Definition extend (st : Cursor) (k1 : list float32) (k2 : list Z) : Cursor :=
  mkCursor (origin st) (baseline st) (maxX st) (vtx st) (idx st)
    (vertexBuf st ++ k1) (indexBuf st ++ k2).

(** After [q] quads, with [n] runes still to come: the counters, and room in
    both buffers for a quad per remaining rune. *)
Definition fits (n : Z) (st : Cursor) : Prop :=
  ∃ q, 0 ≤ q ∧ vtx st = u16 (4 * q) ∧ idx st = 6 * q
       ∧ 16 * (q + n) ≤ len (vertexBuf st)
       ∧ 6 * (q + n) ≤ len (indexBuf st).

(** The bounds that text.go:127-130 leaves, from the cursor after the loop. *)
Definition boundsAfter (f : Font) (st : Cursor) : Rectf :=
  mkRectf
    (f32_zero,
     f32_add (baseline st) (f32_mul (f32_of_int (Descender f)) (FontScaling f)))
    (if f32_gtb (origin st) (maxX st) then origin st else maxX st,
     f32_mul (f32_of_int (Ascender f)) (FontScaling f)).

(** The horizontal cursor, the baseline and the tracked maximal width. *)
Definition pen (st : Cursor) : float32 * float32 * float32 :=
  (origin st, baseline st, maxX st).

(** What one rune does to the pen (text.go:78-97 and 123). *)
Definition penStep (f : Font) (twp : float32) (pn : float32 * float32 * float32)
    (r : rune) : float32 * float32 * float32 :=
  let '(o, b, m) := pn in
  if r =? 13 then pn
  else if r =? 10 then
    (f32_zero, f32_sub b (f32_mul (f32_of_int (Height f)) (FontScaling f)),
     if f32_gtb o m then o else m)
  else if r =? 9 then (f32_add o (f32_mul twp (FontScaling f)), b, m)
  else match Chars f !! r with
       | Some c => (f32_add o (f32_mul (f32_of_int (Width c)) (FontScaling f)), b, m)
       | None => pn
       end.

(** The [Text] that [update] leaves when the layout is [out]. *)
Definition installed (m : Text) (out : Layout) : Text :=
  mkText (font m) (tabWidth m) (tabWidthPt m)
    (mkMesh (material (mesh m))
       (mkGeometry (outVertexCount out) (outVertices out) (Some (outIndices out))
          gl_TRIANGLES positionTexCoord InterleavedBuffer))
    (text m) (outBounds out) (color m).


(** ** Notions for the further properties of the geometry container *)

(** The vertex size that a shader expects for a list of attributes: the sum
    of the component counts of their types (geometry.go:196-201). *)
Definition expectedVertexSize (engine : Engine) (sProg : ShaderProgram)
    (vertexAttributes : list string) : Z :=
  foldr (λ attr acc, components engine (default 0 (attributeTypes sProg !! attr)) + acc)
        0 vertexAttributes.

(** [g'] holds everything [g] holds, at the same places: the kind of
    geometry is the same, and the vertex data and the indices of [g] are the
    beginning of those of [g']. *)
Definition extendsGeometry (g g' : Geometry) : Prop :=
  primitiveType g' = primitiveType g
  ∧ vertexAttributes g' = vertexAttributes g
  ∧ bufferLayout g' = bufferLayout g
  ∧ vertices g `prefix_of` vertices g'
  ∧ elems (indices g) `prefix_of` elems (indices g').

(** The indices of the receiver followed by the incoming ones, each moved
    up by the vertex count of the receiver. *)
Definition mergedIndices (g : Geometry) (indices' : option (list Z))
    : option (list Z) :=
  (λ gi, gi ++ map (λ x, x + vertexCount g) (elems indices')) <$> indices g.

(** A quad of two-float positions, indexed as two triangles. *)
Definition quadGeometryData : list float32 :=
  [fl 0; fl 0; fl 0; fl 1;  fl 1; fl 0; fl 1; fl 1;
   fl 1; fl 1; fl 1; fl 0;  fl 0; fl 1; fl 0; fl 0].
Definition quadIndices : list Z := [0; 1; 2; 2; 3; 0].

(** ** Notions for the further properties of the text layout *)

(** A cursor at a pen position, with everything else blank. *)
Definition penCursor (pn : float32 * float32 * float32) : Cursor :=
  mkCursor pn.1.1 pn.1.2 pn.2 0 0 [] [].

(** The pen before the first rune. *)
Definition penStart : float32 * float32 * float32 := (f32_zero, f32_zero, f32_zero).

(** The vertex floats of a text, rune by rune: the quad of every printable
    rune that has a glyph, placed at the pen position reached before it. *)
Fixpoint layoutQuads (f : Font) (twp : float32) (pn : float32 * float32 * float32)
    (runes : list rune) : list float32 :=
  match runes with
  | [] => []
  | r :: rest =>
      (if printable r
       then match Chars f !! r with
            | Some c => glyphQuad f (penCursor pn) r c
            | None => []
            end
       else [])
      ++ layoutQuads f twp (penStep f twp pn r) rest
  end.

(** The indices of a text whose first quad is the [k]-th: six per quad, on
    its four vertices. *)
Fixpoint layoutIndices (f : Font) (k : Z) (runes : list rune) : list Z :=
  match runes with
  | [] => []
  | r :: rest =>
      if emitsQuad f r
      then [4 * k; 4 * k + 1; 4 * k + 2; 4 * k + 2; 4 * k + 3; 4 * k]
           ++ layoutIndices f (k + 1) rest
      else layoutIndices f k rest
  end.

(** Go's result of a call that may panic, mapped. *)
Definition mapRes {A B : Type} (h : A → B) (r : Res A) : Res B :=
  match r with
  | Ok a => Ok (h a)
  | Panic e => Panic e
  end.

(** ** The font loader (package [font], NGL XML fonts) *)

Module font.

(** The structures that [xml.Unmarshal] fills.  Go's field names are per
    struct; the fields of the decoded structures carry a prefix here, and
    [Type] and the [Texture] of [nglFont] an underscore. *)
Record nglDescription : Type := mkNglDescription {
  dFamily : string;
  dStyle : string;
  dSize : Z
}.

Record nglMetrics : Type := mkNglMetrics {
  mHeight : Z;
  mAscender : Z;
  mDescender : Z
}.

Record nglTexture : Type := mkNglTexture {
  tWidth : Z;
  tHeight : Z;
  tFile : string
}.

Record nglChar : Type := mkNglChar {
  ID : string;
  Advance : Z;
  OffsetX : Z;
  OffsetY : Z;
  RectX : Z;
  RectY : Z;
  RectW : Z;
  RectH : Z
}.

Record nglFont : Type := mkNglFont {
  Type_ : string;
  Description : nglDescription;
  Metrics : nglMetrics;
  Texture_ : nglTexture;
  nglChars : list nglChar
}.

(** The [Font] of the package, with the fields of the composite literal of
    [Load]; [Chars] maps a rune to the glyph record [Char]. *)
Record Font : Type := mkFont {
  Family : string;
  Style : string;
  Size : Z;
  Monospace : bool;
  Chars : gmap Z Char;
  Ascender : Z;
  Descender : Z;
  Height : Z;
  Texture : string
}.

(** The zero value [Font{}]; a nil map reads as the empty map. *)
Definition zeroFont : Font :=
  mkFont "" "" 0 false ∅ 0 0 0 "".

(** The errors of [Load]: the error of [ioutil.ReadFile] as it is, or
    "unmarshal ngl xml font" wrapping the error of [xml.Unmarshal], which is
    nil when only the type attribute is wrong. *)
Inductive LoadError (E : Type) : Type :=
  | ReadFailed (err : E)
  | UnmarshalFailed (cause : option E).
Arguments ReadFailed {E} err.
Arguments UnmarshalFailed {E} cause.

Section Load.
(** The file system, the XML decoder and Go's conversion [[]rune(s)] of a
    string to its code points are taken as they are. *)
Variable E : Type.
Variable Content : Type.
Variable ReadFile : string → Content + E.
Variable Unmarshal : Content → nglFont * option E.
Variable runesOf : string → list rune.

(** The glyph record of an entry (lines 83-88). *)
Definition charOf (c : nglChar) : Char :=
  mkChar (Advance c) (OffsetX c, OffsetY c) (RectX c, RectY c) (RectW c, RectH c).

(** One iteration of the loop of lines 73-89; [prev] is [ngl.Chars[i-1]],
    absent when [i] is 0. *)
Definition loadChar (prev : option nglChar) (c : nglChar) (f : Font) : Font :=
  match runesOf (ID c) with
  | [r] =>
      let monospace :=
        match prev with
        | Some c0 => if negb (Advance c =? Advance c0) then false else Monospace f
        | None => Monospace f
        end in
      mkFont (Family f) (Style f) (Size f) monospace
        (<[r := charOf c]> (Chars f))
        (Ascender f) (Descender f) (Height f) (Texture f)
  | _ => f
  end.

Fixpoint loadChars (prev : option nglChar) (cs : list nglChar) (f : Font) : Font :=
  match cs with
  | [] => f
  | c :: rest => loadChars (Some c) rest (loadChar prev c f)
  end.

(** Lines 61-90: the font built from a decoded file. *)
Definition buildFont (ngl : nglFont) : Font :=
  loadChars None (nglChars ngl)
    (mkFont (dFamily (Description ngl)) (dStyle (Description ngl))
       (dSize (Description ngl)) true ∅
       (mAscender (Metrics ngl)) (mDescender (Metrics ngl))
       (mHeight (Metrics ngl)) (tFile (Texture_ ngl))).

(** [Load], lines 50-91. *)
Definition Load (path : string) : Font * option (LoadError E) :=
  match ReadFile path with
  | inr err => (zeroFont, Some (ReadFailed err))
  | inl content =>
      let '(ngl, err) := Unmarshal content in
      if bool_decide (is_Some err) || negb (String.eqb (Type_ ngl) "NGL")
      then (zeroFont, Some (UnmarshalFailed err))
      else (buildFont ngl, None)
  end.
End Load.

Arguments Load {E Content} ReadFile Unmarshal runesOf path.

End font.

(** The entries of a decoded font whose ID is the single rune [r]. *)
Definition entriesFor (runesOf : string → list rune) (r : rune)
    (cs : list font.nglChar) : list font.nglChar :=
  filter (λ c, runesOf (font.ID c) = [r]) cs.

(** Every entry with a single-rune ID advances as the entry before it in the
    file, when it has one before it. *)
Fixpoint advancesAgree (runesOf : string → list rune) (prev : option font.nglChar)
    (cs : list font.nglChar) : Prop :=
  match cs with
  | [] => True
  | c :: rest =>
      (∀ c0, prev = Some c0 → length (runesOf (font.ID c)) = 1%nat →
             font.Advance c = font.Advance c0)
      ∧ advancesAgree runesOf (Some c) rest
  end.

(** Code points of a string of ASCII characters, for the examples. *)
Definition asciiRunes (s : string) : list rune :=
  map (λ a, Z.of_nat (Ascii.nat_of_ascii a)) (String.list_ascii_of_string s).

(** A decoded file with the glyphs 'A' and 'B', both advancing by 10, and an
    entry whose ID is not a single rune. *)
Definition nglExample : font.nglFont :=
  font.mkNglFont "NGL"
    (font.mkNglDescription "Plex" "Regular" 32)
    (font.mkNglMetrics 20 16 (-4))
    (font.mkNglTexture 256 256 "plex.png")
    [font.mkNglChar "A" 10 1 15 0 0 8 16;
     font.mkNglChar "AB" 7 0 0 0 0 0 0;
     font.mkNglChar "B" 10 1 15 8 0 8 16].

(** The same file without the entry whose ID is not a single rune. *)
Definition nglPlain : font.nglFont :=
  font.mkNglFont "NGL"
    (font.mkNglDescription "Plex" "Regular" 32)
    (font.mkNglMetrics 20 16 (-4))
    (font.mkNglTexture 256 256 "plex.png")
    [font.mkNglChar "A" 10 1 15 0 0 8 16;
     font.mkNglChar "B" 10 1 15 8 0 8 16].
Lemma assert_True_Abort_Ok cond e b :
  assert_True Abort cond e = Ok b ↔ cond = true ∧ b = true.
Proof.
  unfold assert_True. destruct cond; split.
  - intros [= <-]. done.
  - intros [_ ->]. done.
  - discriminate.
  - intros [? _]. discriminate.
Qed.

Lemma rem_eqb_divide (n d : Z) : d ≠ 0 → (Z.rem n d =? 0) = true ↔ (d | n).
Proof.
  intros Hd. rewrite Z.eqb_eq. apply Z.rem_divide. exact Hd.
Qed.

Lemma checkPrimitive_Abort_Ok primitiveType n :
  checkPrimitive Abort primitiveType n = Ok () ↔ primitiveRule primitiveType n.
Proof.
  unfold checkPrimitive, primitiveRule, assert_Fail, assert_True.
  unfold gl_POINTS, gl_LINE_STRIP, gl_LINE_LOOP, gl_LINES, gl_TRIANGLE_STRIP,
    gl_TRIANGLE_FAN, gl_TRIANGLES.
  pose proof (rem_eqb_divide n 2 ltac:(lia)) as H2.
  pose proof (rem_eqb_divide n 3 ltac:(lia)) as H3.
  destruct (Z.eqb_spec primitiveType 0) as [->|?]; [simpl; intuition|].
  destruct (Z.eqb_spec primitiveType 3) as [->|?].
  { simpl. destruct (Z.leb_spec0 1 n); simpl;
      intuition (first [lia | discriminate]). }
  destruct (Z.eqb_spec primitiveType 2) as [->|?]; [simpl; intuition|].
  destruct (Z.eqb_spec primitiveType 1) as [->|?].
  { simpl. destruct (Z.rem n 2 =? 0); simpl;
      intuition (first [lia | discriminate]). }
  destruct (Z.eqb_spec primitiveType 5) as [->|?].
  { simpl. destruct (Z.leb_spec0 2 n); simpl;
      intuition (first [lia | discriminate]). }
  destruct (Z.eqb_spec primitiveType 6) as [->|?].
  { simpl. destruct (Z.leb_spec0 2 n); simpl;
      intuition (first [lia | discriminate]). }
  destruct (Z.eqb_spec primitiveType 4) as [->|?].
  { simpl. destruct (Z.rem n 3 =? 0); simpl;
      intuition (first [lia | discriminate]). }
  simpl. intuition (first [lia | discriminate]).
Qed.

Lemma AssertValidGeometry_Abort_Ok engine vertexCount vertices indices
    primitiveType vertexAttributes :
  AssertValidGeometry Abort engine "" vertexCount vertices indices
    primitiveType vertexAttributes = Ok ()
  ↔ selfConsistent vertexCount vertices indices vertexAttributes
    ∧ primitiveRule primitiveType (effectiveIndexCount vertexCount indices).
Proof.
  rewrite <- checkPrimitive_Abort_Ok.
  unfold AssertValidGeometry, selfConsistent, checkShader. simpl.
  unfold mbind, Res_bind.
  destruct (checkVertexData Abort vertexCount vertices) as [vs|e]; simpl.
  - destruct (checkAttributes Abort vertexCount vs vertexAttributes) as [[]|e1] eqn:Ha.
    + destruct (checkIndices Abort vertexCount indices) as [[]|e2] eqn:Hi.
      * destruct (checkPrimitive Abort primitiveType _) as [[]|e3].
        -- split; [intros _ | done].
           split; [exists vs; rewrite Ha; auto | reflexivity].
        -- split; [discriminate | intros [_ ?]; discriminate].
      * split; [discriminate | intros [(vs' & _ & _ & ?) _]; discriminate].
    + split; [discriminate |].
      intros [(vs' & Hv & Ha' & _) _]. injection Hv as <-. congruence.
  - split; [discriminate | intros [(vs' & ? & _) _]; discriminate].
Qed.

(** ** Running the methods of [*Geometry] *)

Lemma bind_run {A B : Type} (m : GeomM A) (k : A → GeomM B) g :
  (m ≫= k) g = match m g with
               | (g', Ok a) => k a g'
               | (g', Panic e) => (g', Panic e)
               end.
Proof. reflexivity. Qed.

Lemma reads_liftR {A : Type} (r : Res A) : reads (liftR r).
Proof. intros g. reflexivity. Qed.

Lemma reads_getG : reads getG.
Proof. intros g. reflexivity. Qed.

Lemma reads_mret {A : Type} (a : A) : reads (mret a : GeomM A).
Proof. intros g. reflexivity. Qed.

Lemma reads_bind {A B : Type} (m : GeomM A) (k : A → GeomM B) :
  reads m → (∀ a, reads (k a)) → reads (m ≫= k).
Proof.
  intros Hm Hk g. rewrite bind_run. specialize (Hm g).
  destruct (m g) as [g' [a|e]]; simpl in *; subst; [apply Hk | reflexivity].
Qed.

Lemma total_mret {A : Type} (a : A) : total (mret a : GeomM A).
Proof. intros g. exists a. reflexivity. Qed.

Lemma total_getG : total getG.
Proof. intros g. exists g. reflexivity. Qed.

Lemma total_set_vertexCount n : total (set_vertexCount n).
Proof. intros g. exists (). reflexivity. Qed.
Lemma total_set_vertices l : total (set_vertices l).
Proof. intros g. exists (). reflexivity. Qed.
Lemma total_set_indices l : total (set_indices l).
Proof. intros g. exists (). reflexivity. Qed.
Lemma total_set_primitiveType t : total (set_primitiveType t).
Proof. intros g. exists (). reflexivity. Qed.
Lemma total_set_vertexAttributes l : total (set_vertexAttributes l).
Proof. intros g. exists (). reflexivity. Qed.
Lemma total_set_bufferLayout b : total (set_bufferLayout b).
Proof. intros g. exists (). reflexivity. Qed.

Lemma total_bind {A B : Type} (m : GeomM A) (k : A → GeomM B) :
  total m → (∀ a, total (k a)) → total (m ≫= k).
Proof.
  intros Hm Hk g. rewrite bind_run. destruct (Hm g) as [a Ha].
  destruct (m g) as [g' r]; simpl in *; subst. apply Hk.
Qed.

Lemma total_if {A : Type} (b : bool) (m1 m2 : GeomM A) :
  total m1 → total m2 → total (if b then m1 else m2).
Proof. destruct b; auto. Qed.

Lemma atomic_reads {A : Type} (m : GeomM A) : reads m → atomic m.
Proof. intros Hm g e _. apply Hm. Qed.

Lemma atomic_total {A : Type} (m : GeomM A) : total m → atomic m.
Proof. intros Hm g e He. destruct (Hm g) as [a Ha]. congruence. Qed.

Lemma atomic_bind_reads {A B : Type} (m : GeomM A) (k : A → GeomM B) :
  reads m → (∀ a, atomic (k a)) → atomic (m ≫= k).
Proof.
  intros Hm Hk g e. rewrite bind_run. specialize (Hm g).
  destruct (m g) as [g' [a|e']]; simpl in *; subst; [apply Hk | reflexivity].
Qed.

Lemma atomic_bind_total {A B : Type} (m : GeomM A) (k : A → GeomM B) :
  atomic m → (∀ a, total (k a)) → atomic (m ≫= k).
Proof.
  intros Hm Hk g e. rewrite bind_run. specialize (Hm g).
  destruct (m g) as [g' [a|e']]; simpl in *.
  - destruct (Hk a g') as [b Hb]. congruence.
  - intros _. eapply Hm. reflexivity.
Qed.

Lemma atomic_if {A : Type} (b : bool) (m1 m2 : GeomM A) :
  atomic m1 → atomic m2 → atomic (if b then m1 else m2).
Proof. destruct b; auto. Qed.

Create HintDb geom discriminated.
#[local] Hint Resolve reads_liftR reads_getG reads_mret total_mret total_getG
  total_set_vertexCount total_set_vertices total_set_indices
  total_set_primitiveType total_set_vertexAttributes total_set_bufferLayout
  total_if : geom.

Ltac geom_total :=
  repeat first
    [ apply total_bind; [| intros ?]
    | apply total_if
    | solve [auto with geom] ].

Lemma atomic_Geometry_Set p engine vertexCount' vertices' indices'
    primitiveType' vertexAttributes' bufferLayout' :
  atomic (Geometry_Set p engine vertexCount' vertices' indices' primitiveType'
            vertexAttributes' bufferLayout').
Proof.
  unfold Geometry_Set. apply atomic_bind_reads; [auto with geom |].
  intros _. apply atomic_total. geom_total.
Qed.

Lemma atomic_stitchTriangleStrip vertexCount' vertices' indices' :
  atomic (stitchTriangleStrip vertexCount' vertices' indices').
Proof.
  unfold stitchTriangleStrip. apply atomic_bind_total; [| intros _; geom_total].
  destruct indices' as [l|].
  - apply atomic_bind_reads; [auto with geom | intros i0].
    apply atomic_total. geom_total.
  - apply atomic_bind_reads; [auto with geom | intros vertexSize].
    apply atomic_bind_reads; [auto with geom | intros g].
    apply atomic_bind_reads; [auto with geom | intros lastVertex].
    apply atomic_bind_reads; [auto with geom | intros firstVertex].
    apply atomic_total. geom_total.
Qed.

Lemma total_appendData vertexCount' vertices' indices' :
  total (appendData vertexCount' vertices' indices').
Proof. unfold appendData. geom_total. Qed.

Lemma atomic_Geometry_Append p engine vertexCount' vertices' indices'
    primitiveType' vertexAttributes' bufferLayout' :
  atomic (Geometry_Append p engine vertexCount' vertices' indices' primitiveType'
            vertexAttributes' bufferLayout').
Proof.
  unfold Geometry_Append.
  apply atomic_bind_reads; [auto with geom | intros g].
  apply atomic_if; [apply atomic_Geometry_Set |].
  apply atomic_bind_reads; [auto with geom | intros _].
  apply atomic_bind_total; [| intros _; apply total_appendData].
  apply atomic_if; [apply atomic_stitchTriangleStrip |].
  apply atomic_reads. auto with geom.
Qed.

(** ** The successful paths of [Append] *)

Lemma equalElements_eq a b :
  length a = length b → equalElements a b = true ↔ a = b.
Proof.
  revert b. induction a as [|x a IH]; intros [|y b] Hl; simpl in *; try done.
  destruct (String.eqb_spec x y) as [->|Hne].
  - rewrite IH by lia. split; [intros ->; done | intros [= ->]; done].
  - split; [done | intros [= ? ?]; done].
Qed.

Lemma equalStringSlice_eq a b : equalStringSlice a b = true ↔ a = b.
Proof.
  unfold equalStringSlice, len.
  destruct (Z.eqb_spec (Z.of_nat (length a)) (Z.of_nat (length b))) as [Hl|Hl]; simpl.
  - apply equalElements_eq. lia.
  - split; [done | intros ->; done].
Qed.

Lemma appendable_orb t :
  ((t =? gl_POINTS) || (t =? gl_LINES) || (t =? gl_TRIANGLES)
   || (t =? gl_TRIANGLE_STRIP)) = true ↔ appendable t.
Proof.
  unfold appendable. rewrite !orb_true_iff, !Z.eqb_eq. tauto.
Qed.

Lemma indexedness_eqb (a b : option (list Z)) :
  eqb (bool_decide (is_Some a)) (bool_decide (is_Some b)) = true
  ↔ (is_Some a ↔ is_Some b).
Proof.
  destruct a as [x|], b as [y|]; simpl; split; intros H; try done.
  all: try (split; intros [? ?]; (eauto || done)).
  all: destruct H as [H1 H2];
    first [ destruct H1 as [? ?]; [eauto | done]
          | destruct H2 as [? ?]; [eauto | done] ].
Qed.

Lemma appendChecks_Abort_Ok engine g vertexCount' vertices' indices'
    primitiveType' vertexAttributes' bufferLayout' :
  appendChecks Abort engine g vertexCount' vertices' indices' primitiveType'
    vertexAttributes' bufferLayout' = Ok ()
  ↔ validRun engine vertexCount' vertices' indices' primitiveType' vertexAttributes'
    ∧ compatible g vertexCount' indices' primitiveType' vertexAttributes'
        bufferLayout'.
Proof.
  unfold appendChecks, validRun, compatible.
  rewrite <- appendable_orb, <- indexedness_eqb, <- equalStringSlice_eq.
  unfold assert_True, mbind, mret, Res_bind, Res_ret.
  assert (Hfail : ∀ (e : Error) (P : Prop), ¬ P → (Panic e = Ok () :> Res unit) ↔ P).
  { intros e P HP. split; [discriminate | done]. }
  destruct (AssertValidGeometry _ _ _ _ _ _ _ _) as [[]|e];
    [| apply Hfail; intros [? _]; discriminate].
  destruct (Z.eqb_spec (primitiveType g) primitiveType');
    [| apply Hfail; tauto].
  destruct (equalStringSlice _ _);
    [| apply Hfail; intros (_&_&?&_); discriminate].
  destruct (Z.leb_spec0 (vertexCount g + vertexCount' + 2) 65535);
    [| apply Hfail; tauto].
  destruct (eqb _ _);
    [| apply Hfail; intros (_&_&_&_&?&_); discriminate].
  destruct (Z.ltb_spec0 1 (len vertexAttributes')).
  - destruct (decide (bufferLayout g = bufferLayout')) as [Hb|Hb];
      [rewrite (bool_decide_eq_true_2 _ Hb)
      | rewrite (bool_decide_eq_false_2 _ Hb); apply Hfail; tauto].
    destruct (decide (bufferLayout' = InterleavedBuffer)) as [Hi|Hi];
      [rewrite (bool_decide_eq_true_2 _ Hi)
      | rewrite (bool_decide_eq_false_2 _ Hi); apply Hfail; tauto].
    destruct (_ || _);
      [| apply Hfail; intros (_&_&_&_&_&_&?); discriminate].
    tauto.
  - destruct (_ || _);
      [| apply Hfail; intros (_&_&_&_&_&_&?); discriminate].
    tauto.
Qed.

Lemma appendData_run vertexCount' vertices' indices' g :
  appendData vertexCount' vertices' indices' g
  = (mkGeometry (vertexCount g + vertexCount') (vertices g ++ vertices')
       (offsetIndicesFrom (lenI (indices g)) (u16 (vertexCount g))
          (go_append (indices g) (elems indices')))
       (primitiveType g) (vertexAttributes g) (bufferLayout g), Ok ()).
Proof. reflexivity. Qed.

Lemma stitch_nonindexed_run vertexCount' vertices' g vertexSize :
  vertexCount' ≠ 0 →
  Z.quot (len vertices') vertexCount' = vertexSize →
  0 ≤ vertexSize ≤ len (vertices g) →
  vertexSize ≤ len vertices' →
  stitchTriangleStrip vertexCount' vertices' None g
  = (mkGeometry (vertexCount g + (2 + Z.rem (vertexCount g) 2))
       (vertices g ++ lastFloats vertexSize (vertices g)
          ++ firstFloats vertexSize vertices'
          ++ (if Z.rem (vertexCount g) 2 =? 0 then []
              else firstFloats vertexSize vertices'))
       (indices g) (primitiveType g) (vertexAttributes g) (bufferLayout g), Ok ()).
Proof.
  intros Hn Hq Hg Hv.
  assert (H0 : go_div (len vertices') vertexCount' = Ok vertexSize).
  { unfold go_div. destruct (Z.eqb_spec vertexCount' 0); [done | by rewrite Hq]. }
  assert (H1 : slice_from (vertices g) (len (vertices g) - vertexSize)
               = Ok (lastFloats vertexSize (vertices g))).
  { unfold slice_from.
    destruct (Z.leb_spec0 0 (len (vertices g) - vertexSize)); [| lia].
    destruct (Z.leb_spec0 (len (vertices g) - vertexSize) (len (vertices g)));
      [done | lia]. }
  assert (H2 : slice_to vertices' vertexSize = Ok (firstFloats vertexSize vertices')).
  { unfold slice_to.
    destruct (Z.leb_spec0 0 vertexSize); [| lia].
    destruct (Z.leb_spec0 vertexSize (len vertices')); [done | lia]. }
  unfold stitchTriangleStrip, mbind, GeomM_bind, liftR, getG, set_vertices,
    set_vertexCount, mret, GeomM_ret.
  rewrite H0. cbn beta iota. rewrite H1. cbn beta iota. rewrite H2.
  cbn beta iota delta [vertexCount vertices indices primitiveType
                        vertexAttributes bufferLayout].
  destruct (Z.rem (vertexCount g) 2 =? 0); cbn;
    rewrite <- ?app_assoc, ?app_nil_r; reflexivity.
Qed.

Lemma stitch_indexed_run vertexCount' vertices' i0 rest g :
  stitchTriangleStrip vertexCount' vertices' (Some (i0 :: rest)) g
  = (mkGeometry (vertexCount g + (2 + Z.rem (vertexCount g) 2))
       (vertices g)
       (go_append (indices g)
          ([u16 0; u16 (i0 + u16 (vertexCount g))]
           ++ (if Z.rem (vertexCount g) 2 =? 0 then []
               else [u16 (i0 + u16 (vertexCount g))])))
       (primitiveType g) (vertexAttributes g) (bufferLayout g), Ok ()).
Proof.
  unfold stitchTriangleStrip, firstIndex. simpl.
  unfold set_indices, set_vertexCount, getG, liftR. rewrite !bind_run. simpl.
  destruct (Z.rem (vertexCount g) 2 =? 0); simpl;
    destruct (indices g) as [l|]; simpl; rewrite <- ?app_assoc; reflexivity.
Qed.

Lemma Geometry_Append_nonempty_run p engine vertexCount' vertices' indices'
    primitiveType' vertexAttributes' bufferLayout' g :
  vertexCount g ≠ 0 →
  Geometry_Append p engine vertexCount' vertices' indices' primitiveType'
    vertexAttributes' bufferLayout' g
  = match appendChecks p engine g vertexCount' vertices' indices' primitiveType'
            vertexAttributes' bufferLayout' with
    | Panic e => (g, Panic e)
    | Ok _ =>
        match (if primitiveType' =? gl_TRIANGLE_STRIP
               then stitchTriangleStrip vertexCount' vertices' indices'
               else mret ()) g with
        | (g', Panic e) => (g', Panic e)
        | (g', Ok _) => appendData vertexCount' vertices' indices' g'
        end
    end.
Proof.
  intros Hn. unfold Geometry_Append, getG. rewrite bind_run. simpl.
  destruct (Z.eqb_spec (vertexCount g) 0) as [?|_]; [done |].
  rewrite bind_run. unfold liftR.
  destruct (appendChecks _ _ _ _ _ _ _ _ _) as [[]|e]; [| reflexivity].
  rewrite bind_run. reflexivity.
Qed.

Lemma Geometry_Set_run p engine vertexCount' vertices' indices' primitiveType'
    vertexAttributes' bufferLayout' g :
  Geometry_Set p engine vertexCount' vertices' indices' primitiveType'
    vertexAttributes' bufferLayout' g
  = match AssertValidGeometry p engine "" vertexCount' vertices' indices'
            primitiveType' vertexAttributes' with
    | Ok _ => (mkGeometry vertexCount' vertices' indices' primitiveType'
                 vertexAttributes' bufferLayout', Ok ())
    | Panic e => (g, Panic e)
    end.
Proof.
  unfold Geometry_Set, liftR. rewrite bind_run.
  destruct (AssertValidGeometry _ _ _ _ _ _ _ _); reflexivity.
Qed.

(** ** The methods under reporting assertions *)

Lemma assert_True_Report cond e : assert_True Report cond e = Ok cond.
Proof. destruct cond; reflexivity. Qed.

Lemma checkShaderAttributes_Report engine sProg attrs : ∀ acc,
  ∃ n, checkShaderAttributes Report engine sProg attrs acc = Ok n.
Proof.
  induction attrs as [|a attrs IH]; intros acc; simpl.
  - eauto.
  - rewrite assert_True_Report. apply IH.
Qed.

Lemma AssertValidGeometry_Report engine sProgKey vertexCount' vertices' indices'
    primitiveType' vertexAttributes' :
  AssertValidGeometry Report engine sProgKey vertexCount' vertices' indices'
    primitiveType' vertexAttributes' = Ok ().
Proof.
  unfold AssertValidGeometry, checkVertexData, checkAttributes, checkIndices,
    checkPrimitive, checkShader, assert_Func, assert_Fail.
  repeat rewrite assert_True_Report.
  destruct (0 <? vertexCount'); simpl;
    (destruct (0 <? lenI indices'); simpl;
     [destruct (scanIndices _ _) as [[mn mx] ok]; simpl;
      repeat rewrite assert_True_Report; simpl |]);
    (repeat (destruct (primitiveType' =? _); simpl;
             repeat rewrite assert_True_Report; simpl));
    (destruct (String.eqb sProgKey ""); [reflexivity |]);
    repeat rewrite assert_True_Report; simpl;
    (destruct (resolve engine sProgKey) as [sProg|]; [| reflexivity]); simpl;
    (destruct (checkShaderAttributes_Report engine sProg vertexAttributes' 0)
       as [n ->]); simpl;
    repeat (destruct (_ <? _); simpl; repeat rewrite assert_True_Report; simpl);
    reflexivity.
Qed.

(** With assertions that only report, nothing stops [Set]: it stores its
    arguments whatever they are. *)
Lemma Geometry_Set_Report engine vertexCount' vertices' indices' primitiveType'
    vertexAttributes' bufferLayout' g :
  Geometry_Set Report engine vertexCount' vertices' indices' primitiveType'
    vertexAttributes' bufferLayout' g
  = (mkGeometry vertexCount' vertices' indices' primitiveType'
       vertexAttributes' bufferLayout', Ok ()).
Proof. rewrite Geometry_Set_run, AssertValidGeometry_Report. reflexivity. Qed.

Lemma appendChecks_Report engine g vertexCount' vertices' indices'
    primitiveType' vertexAttributes' bufferLayout' :
  appendChecks Report engine g vertexCount' vertices' indices' primitiveType'
    vertexAttributes' bufferLayout' = Ok ().
Proof.
  unfold appendChecks. rewrite AssertValidGeometry_Report.
  repeat rewrite assert_True_Report. simpl.
  destruct (1 <? len vertexAttributes'); reflexivity.
Qed.

(** When no assertion fails, it does not matter what a failed one does. *)
Lemma appendChecks_pass p engine g vertexCount' vertices' indices'
    primitiveType' vertexAttributes' bufferLayout' :
  validRun engine vertexCount' vertices' indices' primitiveType' vertexAttributes' →
  compatible g vertexCount' indices' primitiveType' vertexAttributes' bufferLayout' →
  appendChecks p engine g vertexCount' vertices' indices' primitiveType'
    vertexAttributes' bufferLayout' = Ok ().
Proof.
  intros Hvalid Hcompat. destruct p.
  - by apply appendChecks_Abort_Ok.
  - apply appendChecks_Report.
Qed.

Lemma Geometry_Set_pass p engine vertexCount' vertices' indices' primitiveType'
    vertexAttributes' bufferLayout' g :
  validRun engine vertexCount' vertices' indices' primitiveType' vertexAttributes' →
  Geometry_Set p engine vertexCount' vertices' indices' primitiveType'
    vertexAttributes' bufferLayout' g
  = (mkGeometry vertexCount' vertices' indices' primitiveType'
       vertexAttributes' bufferLayout', Ok ()).
Proof.
  intros Hvalid. destruct p.
  - rewrite Geometry_Set_run. unfold validRun in Hvalid. by rewrite Hvalid.
  - apply Geometry_Set_Report.
Qed.

(** ** Properties of the geometry container *)

Lemma rem2_eqb_even (n : Z) : (Z.rem n 2 =? 0) = Z.even n.
Proof.
  rewrite Zeven_mod.
  destruct (Z.eqb_spec (Z.rem n 2) 0) as [H|H];
    destruct (Z.eqb_spec (n mod 2) 0) as [H'|H']; try reflexivity.
  - apply Z.rem_divide in H; [| lia]. apply Z.mod_divide in H; [| lia]. done.
  - apply Z.mod_divide in H'; [| lia]. apply Z.rem_divide in H'; [| lia]. done.
Qed.

Lemma rem2_stitch_count (n : Z) :
  0 ≤ n → 2 + Z.rem n 2 = if Z.even n then 2 else 3.
Proof.
  intros Hn. rewrite Z.rem_mod_nonneg by lia. rewrite Zeven_mod.
  destruct (Z.eqb_spec (n mod 2) 0); [lia |].
  pose proof (Z.mod_pos_bound n 2). lia.
Qed.

Lemma to_nat_len {A : Type} (l : list A) : Z.to_nat (len l) = length l.
Proof. unfold len. lia. Qed.

Lemma perform_atomic p engine op : atomic (perform p engine op).
Proof.
  destruct op; simpl.
  - apply atomic_Geometry_Set.
  - apply atomic_Geometry_Append.
  - apply atomic_Geometry_Append.
Qed.

Lemma Geometry_Append_empty_run p engine vertexCount' vertices' indices'
    primitiveType' vertexAttributes' bufferLayout' g :
  vertexCount g = 0 →
  Geometry_Append p engine vertexCount' vertices' indices' primitiveType'
    vertexAttributes' bufferLayout' g
  = Geometry_Set p engine vertexCount' vertices' indices' primitiveType'
      vertexAttributes' bufferLayout' g.
Proof.
  intros H0. unfold Geometry_Append, getG. rewrite bind_run. simpl.
  rewrite H0. reflexivity.
Qed.

Lemma Geometry_Append_rejected engine vertexCount' vertices' indices'
    primitiveType' vertexAttributes' bufferLayout' g :
  ¬ validRun engine vertexCount' vertices' indices' primitiveType' vertexAttributes'
  ∨ (vertexCount g ≠ 0
     ∧ ¬ compatible g vertexCount' indices' primitiveType' vertexAttributes'
           bufferLayout') →
  ∃ e, Geometry_Append Abort engine vertexCount' vertices' indices' primitiveType'
         vertexAttributes' bufferLayout' g = (g, Panic e).
Proof.
  intros Hv. destruct (decide (vertexCount g = 0)) as [H0|H0].
  - rewrite Geometry_Append_empty_run, Geometry_Set_run by done.
    destruct Hv as [Hv|[? _]]; [| done]. unfold validRun in Hv.
    destruct (AssertValidGeometry _ _ _ _ _ _ _ _) as [[]|e]; [done | eauto].
  - rewrite Geometry_Append_nonempty_run by done.
    destruct (appendChecks _ _ _ _ _ _ _ _ _) as [[]|e] eqn:Hc; [| eauto].
    apply appendChecks_Abort_Ok in Hc. tauto.
Qed.

(** C3.  Under the raising assertions, a [Set], [Append] or [AppendGeometry]
    whose arguments violate a validation precondition or (for an append onto
    a non-empty geometry) a compatibility precondition fails, and the
    geometry it returns is the one it was given: every field has its
    pre-call value. *)
Theorem rejected_mutation_leaves_geometry engine g op :
  violatesPrecondition engine g op →
  ∃ e, perform Abort engine op g = (g, Panic e).
Proof.
  destruct op as [n vs idx t attrs bl | n vs idx t attrs bl | o]; simpl; intros Hv.
  - rewrite Geometry_Set_run. unfold validRun in Hv.
    destruct (AssertValidGeometry _ _ _ _ _ _ _ _) as [[]|e]; [done | eauto].
  - by apply Geometry_Append_rejected.
  - unfold Geometry_AppendGeometry. by apply Geometry_Append_rejected.
Qed.

(** Lines appended onto triangles: the append fails with
    [IncompatiblePrimitiveType] and the triangles are untouched. *)
Lemma rejected_mutation_leaves_geometry_witness :
  ∃ e, perform Abort noEngine
         (DoAppend 2 [fl 7; fl 8] None gl_LINES position1 InterleavedBuffer)
         triangles3 = (triangles3, Panic e).
Proof.
  apply (rejected_mutation_leaves_geometry noEngine triangles3
           (DoAppend 2 [fl 7; fl 8] None gl_LINES position1 InterleavedBuffer)).
  simpl. right. split; [vm_compute; discriminate |].
  intros (Ht & _). vm_compute in Ht. discriminate.
Defined.

(** C5 as amended.  The validator succeeds exactly when the checks before the
    [switch] pass and the primitive type accepts [effectiveIndexCount], which
    is the index count when that is not zero and the vertex count otherwise:
    Points and LineLoop accept any count, LineStrip needs at least 1, Lines a
    multiple of 2, Triangles a multiple of 3, TriangleStrip and TriangleFan at
    least 2; every other primitive type is rejected. *)
Theorem validator_primitive_rule engine vertexCount' vertices' indices'
    primitiveType' vertexAttributes' :
  (AssertValidGeometry Abort engine "" vertexCount' vertices' indices'
     primitiveType' vertexAttributes' = Ok ()
   ↔ selfConsistent vertexCount' vertices' indices' vertexAttributes'
     ∧ primitiveRule primitiveType' (effectiveIndexCount vertexCount' indices'))
  ∧ effectiveIndexCount vertexCount' indices'
    = (if lenI indices' =? 0 then vertexCount' else lenI indices')
  ∧ (∀ n, primitiveRule primitiveType' n → 0 ≤ primitiveType' ≤ 6).
Proof.
  split; [apply AssertValidGeometry_Abort_Ok |].
  split; [reflexivity |].
  intros n. unfold primitiveRule, gl_POINTS, gl_LINE_LOOP, gl_LINE_STRIP,
    gl_LINES, gl_TRIANGLES, gl_TRIANGLE_STRIP, gl_TRIANGLE_FAN. lia.
Qed.

(** A line strip of one vertex and an empty line loop pass the validator,
    and the rule of the specification rejects both; a triangle strip of two
    vertices with an empty, non-nil index slice passes on its vertex count,
    while the count of the specification is the length of the slice. *)
Lemma validator_primitive_rule_counterexample :
  (validRun noEngine 1 [fl 1] None gl_LINE_STRIP position1
   ∧ ¬ specPrimitiveRule gl_LINE_STRIP (specEffectiveIndexCount 1 None))
  ∧ (validRun noEngine 0 [] None gl_LINE_LOOP position1
     ∧ ¬ specPrimitiveRule gl_LINE_LOOP (specEffectiveIndexCount 0 None))
  ∧ (validRun noEngine 2 [fl 1; fl 2] (Some []) gl_TRIANGLE_STRIP position1
     ∧ ¬ specPrimitiveRule gl_TRIANGLE_STRIP (specEffectiveIndexCount 2 (Some []))).
Proof.
  unfold specPrimitiveRule, gl_POINTS, gl_LINE_LOOP, gl_LINE_STRIP,
    gl_LINES, gl_TRIANGLES, gl_TRIANGLE_STRIP, gl_TRIANGLE_FAN.
  repeat split; try (vm_compute; reflexivity);
    unfold specEffectiveIndexCount, len; simpl; intuition lia.
Qed.

(** What [Append] does with an indexed triangle strip: the join is the
    index 0 followed by the first incoming index shifted by the vertex count
    of the receiver (twice when that count is odd); the incoming indices are
    shifted by the vertex count after the stitching increment. *)
Lemma Geometry_Append_indexed_strip p engine g gi vertexCount' vertices' i0 rest
    vertexAttributes' bufferLayout' :
  vertexCount g ≠ 0 →
  indices g = Some gi →
  validRun engine vertexCount' vertices' (Some (i0 :: rest)) gl_TRIANGLE_STRIP
    vertexAttributes' →
  compatible g vertexCount' (Some (i0 :: rest)) gl_TRIANGLE_STRIP
    vertexAttributes' bufferLayout' →
  Geometry_Append p engine vertexCount' vertices' (Some (i0 :: rest))
    gl_TRIANGLE_STRIP vertexAttributes' bufferLayout' g
  = (mkGeometry (vertexCount g + (2 + Z.rem (vertexCount g) 2) + vertexCount')
       (vertices g ++ vertices')
       (Some (gi ++ ([u16 0; u16 (i0 + u16 (vertexCount g))]
                     ++ (if Z.rem (vertexCount g) 2 =? 0 then []
                         else [u16 (i0 + u16 (vertexCount g))]))
                 ++ map (λ x, u16 (x + u16 (vertexCount g
                                            + (2 + Z.rem (vertexCount g) 2))))
                        (i0 :: rest)))
       (primitiveType g) (vertexAttributes g) (bufferLayout g), Ok ()).
Proof.
  intros Hne Hgi Hvalid Hcompat.
  rewrite Geometry_Append_nonempty_run by done.
  rewrite (appendChecks_pass p _ _ _ _ _ _ _ _ Hvalid Hcompat).
  change (gl_TRIANGLE_STRIP =? gl_TRIANGLE_STRIP) with true. cbn iota.
  rewrite stitch_indexed_run, appendData_run. cbn [vertexCount vertices indices
    primitiveType vertexAttributes bufferLayout].
  rewrite Hgi. cbn [go_append lenI elems default offsetIndicesFrom].
  rewrite to_nat_len, take_app_length, drop_app_length.
  unfold id. rewrite <- app_assoc. reflexivity.
Qed.

(** C1.  Appending the indexed strip [0,1,2] onto the indexed strip [0,1,2]
    of three vertices succeeds and leaves the indices
    [0,1,2, 0,3,3, 6,7,8]: the first synthetic index is 0, although the last
    index of the existing run is 2.  (The second is the first incoming index
    shifted by the three existing vertices, and it is repeated because three
    is odd.) *)
Theorem indexed_strip_join_starts_at_index_zero p :
  let out := Geometry_Append p noEngine 3 [fl 4; fl 5; fl 6] (Some [0; 1; 2])
               gl_TRIANGLE_STRIP position1 InterleavedBuffer strip3 in
  out.2 = Ok ()
  ∧ indices out.1 = Some ([0; 1; 2] ++ [0; 3; 3] ++ [6; 7; 8])
  ∧ last (elems (indices strip3)) = Some 2.
Proof. destruct p; vm_compute; auto. Qed.

(** C2.  The same append starts from a state that satisfies the validity
    predicate and succeeds, but the state it leaves does not satisfy it: the
    vertex count is 9 while the vertex data holds 6 floats, and the
    geometry's own validator rejects the result. *)
Theorem indexed_strip_append_breaks_validity p :
  let out := perform p noEngine (DoAppendGeometry strip3) strip3 in
  validState strip3
  ∧ out.2 = Ok ()
  ∧ vertexCount out.1 = 9 ∧ len (vertices out.1) = 6
  ∧ indices out.1 = Some [0; 1; 2; 0; 3; 3; 6; 7; 8]
  ∧ ¬ validState out.1
  ∧ AssertValidGeometry Abort noEngine "" (vertexCount out.1) (vertices out.1)
      (indices out.1) (primitiveType out.1) (vertexAttributes out.1)
    = Panic SizeMismatch.
Proof.
  cbv zeta. split.
  { split.
    - exists 1. reflexivity.
    - intros l [= <-]. repeat constructor. }
  assert (Hv : vertexCount (perform p noEngine (DoAppendGeometry strip3) strip3).1 = 9)
    by (destruct p; vm_compute; reflexivity).
  assert (Hl : len (vertices (perform p noEngine (DoAppendGeometry strip3) strip3).1) = 6)
    by (destruct p; vm_compute; reflexivity).
  split; [destruct p; vm_compute; reflexivity |].
  split; [done |]. split; [done |].
  split; [destruct p; vm_compute; reflexivity |].
  split; [| destruct p; vm_compute; reflexivity].
  intros [[k Hk] _]. rewrite Hv, Hl in Hk. lia.
Qed.

(** C4.  Appending a non-indexed triangle strip of [N2] vertices onto a
    non-empty compatible non-indexed triangle strip of [N1] vertices of the
    same vertex size succeeds.  The vertex count becomes [N1 + N2 + 2] when
    [N1] is even and [N1 + N2 + 3] when it is odd; the vertex data is the
    existing data, a copy of its last vertex, one copy (two when [N1] is odd)
    of the first incoming vertex, and the incoming data verbatim. *)
Theorem nonindexed_strip_append p engine g N2 vertices' vertexAttributes'
    bufferLayout' vertexSize :
  0 < vertexCount g →
  indices g = None →
  len (vertices g) = vertexCount g * vertexSize →
  len vertices' = N2 * vertexSize →
  validRun engine N2 vertices' None gl_TRIANGLE_STRIP vertexAttributes' →
  compatible g N2 None gl_TRIANGLE_STRIP vertexAttributes' bufferLayout' →
  Geometry_Append p engine N2 vertices' None gl_TRIANGLE_STRIP
    vertexAttributes' bufferLayout' g
  = (mkGeometry
       (vertexCount g + N2 + (if Z.even (vertexCount g) then 2 else 3))
       (vertices g
        ++ lastFloats vertexSize (vertices g)
        ++ firstFloats vertexSize vertices'
        ++ (if Z.even (vertexCount g) then []
            else firstFloats vertexSize vertices')
        ++ vertices')
       None gl_TRIANGLE_STRIP (vertexAttributes g) (bufferLayout g), Ok ()).
Proof.
  intros Hn1 Hidx Hsz Hsz' Hvalid Hcompat.
  assert (HN2 : 2 ≤ N2).
  { apply AssertValidGeometry_Abort_Ok in Hvalid as [_ Hrule].
    unfold primitiveRule, effectiveIndexCount, gl_POINTS, gl_LINE_LOOP,
      gl_LINE_STRIP, gl_LINES, gl_TRIANGLES, gl_TRIANGLE_STRIP, gl_TRIANGLE_FAN
      in Hrule. simpl in Hrule. lia. }
  assert (Hs : 0 ≤ vertexSize).
  { pose proof (Nat2Z.is_nonneg (length (vertices g))) as Hl.
    unfold len in Hsz. nia. }
  rewrite Geometry_Append_nonempty_run by lia.
  rewrite (appendChecks_pass p _ _ _ _ _ _ _ _ Hvalid Hcompat).
  change (gl_TRIANGLE_STRIP =? gl_TRIANGLE_STRIP) with true. cbn iota.
  rewrite (stitch_nonindexed_run N2 vertices' g vertexSize);
    [| lia | rewrite Hsz', Z.mul_comm; apply Z.quot_mul; lia | nia | nia].
  rewrite appendData_run. cbn [vertexCount vertices indices primitiveType
    vertexAttributes bufferLayout].
  rewrite Hidx. cbn [go_append lenI elems default offsetIndicesFrom].
  destruct Hcompat as (Ht & _). rewrite Ht.
  rewrite rem2_eqb_even, rem2_stitch_count by lia.
  f_equal. f_equal; [lia |].
  rewrite <- !app_assoc. reflexivity.
Qed.

(** Three one-float vertices followed by two: [N1 = 3] is odd, so the first
    incoming vertex is inserted twice and the count is 3 + 2 + 3. *)
Lemma nonindexed_strip_append_witness :
  Geometry_Append Abort noEngine 2 [fl 7; fl 8] None gl_TRIANGLE_STRIP position1
    InterleavedBuffer
    (mkGeometry 3 [fl 1; fl 2; fl 3] None gl_TRIANGLE_STRIP position1
       InterleavedBuffer)
  = (mkGeometry 8 [fl 1; fl 2; fl 3; fl 3; fl 7; fl 7; fl 7; fl 8] None
       gl_TRIANGLE_STRIP position1 InterleavedBuffer, Ok ()).
Proof.
  apply (nonindexed_strip_append Abort noEngine
           (mkGeometry 3 [fl 1; fl 2; fl 3] None gl_TRIANGLE_STRIP position1
              InterleavedBuffer)
           2 [fl 7; fl 8] position1 InterleavedBuffer 1).
  - simpl. lia.
  - reflexivity.
  - reflexivity.
  - reflexivity.
  - vm_compute. reflexivity.
  - unfold compatible, appendable. simpl.
    repeat split; try reflexivity; try lia; auto.
Defined.

Lemma scanIndices_okay n l mn mx ok :
  (foldl (scanIndex n) (mn, mx, ok) l).2 = true →
  ok = true ∧ Forall (λ i, i < n) l.
Proof.
  revert mn mx ok. induction l as [|i l IH]; intros mn mx ok; simpl.
  - auto.
  - intros H. apply IH in H as [Hok Hl].
    destruct (Z.leb_spec0 n i); [discriminate |].
    split; [done | constructor; [lia | done]].
Qed.

Lemma validRun_no_vertices engine vertices' indices' primitiveType'
    vertexAttributes' :
  uint16Slice indices' →
  validRun engine 0 vertices' indices' primitiveType' vertexAttributes' →
  vertices' = [] ∧ lenI indices' = 0.
Proof.
  intros Hu Hvalid.
  apply AssertValidGeometry_Abort_Ok in Hvalid as [(vsz & Hv & _ & Hi) _].
  split.
  - unfold checkVertexData in Hv. simpl in Hv. unfold assert_True in Hv.
    destruct vertices'; [done | discriminate].
  - unfold checkIndices in Hi. destruct indices' as [[|i l]|]; try done.
    exfalso. unfold uint16Slice in Hu. simpl in Hu. inversion Hu as [|? ? Hi0 _]; subst.
    assert (Hpos : (0 <? lenI (Some (i :: l))) = true).
    { apply Z.ltb_lt. unfold lenI, len. rewrite length_cons. lia. }
    rewrite Hpos in Hi. simpl in Hi. unfold scanIndices in Hi. simpl in Hi.
    destruct (foldl _ _ l) as [[mn mx] ok] eqn:Hf.
    assert (Hok : (foldl (scanIndex 0)
                     (if i <? 0 then i else 0, if -1 <? i then i else -1,
                      if 0 <=? i then false else true) l).2 = ok)
      by (rewrite Hf; reflexivity).
    destruct ok.
    + apply scanIndices_okay in Hok as [Hok _].
      destruct (Z.leb_spec0 0 i); [discriminate | lia].
    + unfold assert_Func, assert_True in Hi. simpl in Hi. discriminate.
Qed.

Lemma validRun_empty_run engine indices' primitiveType' vertexAttributes' :
  lenI indices' = 0 →
  primitiveType' = gl_POINTS ∨ primitiveType' = gl_LINES
  ∨ primitiveType' = gl_TRIANGLES →
  validRun engine 0 [] indices' primitiveType' vertexAttributes'.
Proof.
  intros Hl Ht. apply AssertValidGeometry_Abort_Ok. split.
  - exists 0. repeat split; try reflexivity.
    unfold checkIndices. rewrite Hl. reflexivity.
  - unfold effectiveIndexCount. rewrite Hl. simpl.
    unfold primitiveRule.
    destruct Ht as [-> | [-> | ->]]; [tauto | |].
    + do 3 right. left. split; [done | exists 0; done].
    + do 4 right. left. split; [done | exists 0; done].
Qed.

(** C9 as amended.  After a successful [Set] of Points, Lines or Triangles
    with at most 65533 vertices (and, when more than one attribute is
    declared, the Interleaved layout), an [Append] of a zero-length run with
    the same primitive type, attributes, buffer layout and indexed-ness
    succeeds and returns the geometry as it was. *)
Theorem empty_run_append_is_noop p engine g0 g vertexCount' vertices' indices'
    primitiveType' vertexAttributes' bufferLayout' emptyIndices :
  Geometry_Set Abort engine vertexCount' vertices' indices' primitiveType'
    vertexAttributes' bufferLayout' g0 = (g, Ok ()) →
  uint16Slice indices' →
  primitiveType' = gl_POINTS ∨ primitiveType' = gl_LINES
  ∨ primitiveType' = gl_TRIANGLES →
  vertexCount' + 2 ≤ 65535 →
  (1 < len vertexAttributes' → bufferLayout' = InterleavedBuffer) →
  lenI emptyIndices = 0 →
  (is_Some indices' ↔ is_Some emptyIndices) →
  appendEmptyRun p engine emptyIndices primitiveType' vertexAttributes'
    bufferLayout' g = (g, Ok ()).
Proof.
  intros Hset Hu Ht Hcount Hlayout Hempty Hsame.
  rewrite Geometry_Set_run in Hset.
  destruct (AssertValidGeometry _ _ _ _ _ _ _ _) as [[]|e] eqn:Hvalid;
    [| discriminate].
  injection Hset as <-. unfold appendEmptyRun.
  pose proof (validRun_empty_run engine emptyIndices primitiveType'
                vertexAttributes' Hempty Ht) as Hrun.
  assert (Helems : elems emptyIndices = []).
  { destruct emptyIndices as [[|? ?]|]; done. }
  destruct (decide (vertexCount' = 0)) as [->|Hne].
  - rewrite Geometry_Append_empty_run, (Geometry_Set_pass p) by done.
    destruct (validRun_no_vertices _ _ _ _ _ Hu Hvalid) as [-> Hl].
    f_equal. f_equal.
    destruct indices' as [[|? ?]|], emptyIndices as [[|? ?]|]; try done.
    all: try (unfold lenI, len in Hempty, Hl; simpl in Hempty, Hl; lia).
    all: destruct Hsame as [H1 H2];
      first [ destruct H1 as [? ?]; [eauto | done]
            | destruct H2 as [? ?]; [eauto | done] ].
  - rewrite Geometry_Append_nonempty_run by done.
    rewrite (appendChecks_pass p); [| done |].
    2:{ unfold compatible, appendable. simpl.
        repeat split; try done; try lia; try tauto. }
    replace (primitiveType' =? gl_TRIANGLE_STRIP) with false
      by (unfold gl_POINTS, gl_LINES, gl_TRIANGLES, gl_TRIANGLE_STRIP in *; lia).
    unfold mret, GeomM_ret. cbn beta iota.
    rewrite appendData_run. simpl. rewrite Helems, Z.add_0_r, app_nil_r.
    f_equal. f_equal.
    destruct indices' as [l|]; simpl; [| done].
    rewrite to_nat_len, app_nil_r, firstn_all, drop_all. simpl.
    by rewrite app_nil_r.
Qed.

(** A triangle of three one-float vertices, then a zero-length run. *)
Lemma empty_run_append_is_noop_witness :
  appendEmptyRun Abort noEngine None gl_TRIANGLES position1 InterleavedBuffer
    triangles3 = (triangles3, Ok ()).
Proof.
  apply (empty_run_append_is_noop Abort noEngine emptyGeometry triangles3
           3 [fl 1; fl 2; fl 3] None gl_TRIANGLES position1 InterleavedBuffer None).
  - vm_compute. reflexivity.
  - constructor.
  - right. right. reflexivity.
  - lia.
  - intros _. reflexivity.
  - reflexivity.
  - tauto.
Defined.

(** After a successful [Set], a zero-length run with the same primitive
    type, attributes and indexed-ness is rejected for a triangle strip, for
    65534 points, and for two attributes in the Separate layout; and on a
    geometry without vertices it replaces the buffer layout. *)
Lemma empty_run_append_is_noop_counterexample :
  (let g := afterSet 3 [fl 1; fl 2; fl 3] None gl_TRIANGLE_STRIP position1
              InterleavedBuffer in
   vertexCount g = 3
   ∧ appendEmptyRun Abort noEngine None gl_TRIANGLE_STRIP position1
       InterleavedBuffer g = (g, Panic IndexCountMismatch)
   ∧ appendEmptyRun Report noEngine None gl_TRIANGLE_STRIP position1
       InterleavedBuffer g = (g, Panic RuntimePanic))
  ∧ (let g := afterSet 65534 (replicate (Z.to_nat 65534) f32_zero) None gl_POINTS position1
                InterleavedBuffer in
     vertexCount g = 65534
     ∧ appendEmptyRun Abort noEngine None gl_POINTS position1 InterleavedBuffer g
       = (g, Panic NotIndexable))
  ∧ (let g := afterSet 1 [fl 1; fl 2] None gl_POINTS positionTexCoord
                SeparateBuffer in
     vertexCount g = 1
     ∧ appendEmptyRun Abort noEngine None gl_POINTS positionTexCoord
         SeparateBuffer g = (g, Panic UnsupportedBufferLayout))
  ∧ (let g := afterSet 0 [] None gl_POINTS position1 InterleavedBuffer in
     bufferLayout g = InterleavedBuffer
     ∧ bufferLayout (appendEmptyRun Abort noEngine None gl_POINTS position1
                       SeparateBuffer g).1 = SeparateBuffer).
Proof.
  cbv zeta. repeat split; vm_compute; reflexivity.
Qed.

(** ** The text layout: buffers and counts *)

Lemma layoutRunes_app p f twp st a b :
  layoutRunes p f twp st (a ++ b)
  = st' ← layoutRunes p f twp st a; layoutRunes p f twp st' b.
Proof.
  revert st. induction a as [|r a IH]; intros st; simpl.
  - reflexivity.
  - unfold mbind, Res_bind in *.
    destruct (layoutRune p f twp st r) as [st1|e]; [apply IH | reflexivity].
Qed.

Lemma length_overwrite {A : Type} (dst : list A) off (src : list A) :
  0 ≤ off ≤ len dst → length (overwrite dst off src) = length dst.
Proof.
  unfold overwrite, len. intros Hoff.
  rewrite !length_app, !length_take, length_drop. lia.
Qed.

Lemma overwrite_app {A : Type} (dst k : list A) off (src : list A) :
  0 ≤ off → off + len src ≤ len dst →
  overwrite (dst ++ k) off src = overwrite dst off src ++ k.
Proof.
  unfold overwrite, len. intros H0 Hfit.
  rewrite take_app_le by lia.
  rewrite (take_ge src (Z.to_nat (Z.of_nat (length (dst ++ k)) - off)))
    by (rewrite length_app; lia).
  rewrite (take_ge src (Z.to_nat (Z.of_nat (length dst) - off))) by lia.
  rewrite drop_app_le by lia.
  rewrite <- !app_assoc. reflexivity.
Qed.

Lemma u16_range z : 0 ≤ u16 z < 65536.
Proof. unfold u16. apply Z.mod_pos_bound. lia. Qed.

Lemma u16_le z : 0 ≤ z → u16 z ≤ z.
Proof. unfold u16. intros. apply Z.mod_le; lia. Qed.

Lemma u16_small z : 0 ≤ z < 65536 → u16 z = z.
Proof. unfold u16. intros. apply Z.mod_small. lia. Qed.

Lemma u16_vtx_offset q : u16 (u16 (4 * q) * 4) = u16 (16 * q).
Proof.
  unfold u16. rewrite Z.mul_mod_idemp_l by lia. f_equal. lia.
Qed.

Lemma u16_vtx_next q : u16 (u16 (4 * q) + 4) = u16 (4 * (q + 1)).
Proof.
  unfold u16. rewrite Z.add_mod_idemp_l by lia. f_equal. lia.
Qed.

Lemma vertex_offset_fits q n (buf : list float32) :
  0 ≤ q → 1 ≤ n → 16 * (q + n) ≤ len buf →
  0 ≤ u16 (16 * q) ∧ u16 (16 * q) + 16 ≤ len buf.
Proof.
  intros Hq Hn Hlen. pose proof (u16_range (16 * q)) as Hr.
  split; [lia |].
  destruct (Z.lt_ge_cases (16 * q) 65536) as [Hs|Hs].
  - rewrite u16_small by lia. lia.
  - lia.
Qed.

Lemma emitsQuad_known f r c :
  printable r = true → Chars f !! r = Some c → emitsQuad f r = true.
Proof.
  intros Hp Hc. unfold emitsQuad. rewrite Hp, Hc. reflexivity.
Qed.

Lemma emitsQuad_unknown f r : Chars f !! r = None → emitsQuad f r = false.
Proof.
  intros Hc. unfold emitsQuad. rewrite Hc.
  destruct (printable r); reflexivity.
Qed.

Lemma emitsQuad_control f r : printable r = false → emitsQuad f r = false.
Proof. intros Hp. unfold emitsQuad. rewrite Hp. reflexivity. Qed.

(** One iteration of the loop: it does not panic when there is room for
    the rune, it counts a quad exactly for a printable rune with a glyph,
    and over longer buffers it does the same and leaves their tails alone. *)
Lemma layoutRune_spec p f twp st r n k1 k2 :
  p = Report ∨ (printable r = true → is_Some (Chars f !! r)) →
  fits n st → 1 ≤ n →
  ∃ st', layoutRune p f twp st r = Ok st'
         ∧ fits (n - 1) st'
         ∧ idx st' = idx st + (if emitsQuad f r then 6 else 0)
         ∧ layoutRune p f twp (extend st k1 k2) r = Ok (extend st' k1 k2).
Proof.
  intros Hp (q & Hq & Hvtx & Hidx & Hvb & Hib) Hn.
  assert (Hsame : fits (n - 1) st) by (exists q; repeat split; try done; lia).
  unfold layoutRune.
  destruct (Z.eqb_spec r 13) as [->|H13].
  { exists st. rewrite emitsQuad_control by reflexivity.
    repeat split; first [done | lia]. }
  destruct (Z.eqb_spec r 10) as [->|H10].
  { eexists. split; [reflexivity |]. rewrite emitsQuad_control by reflexivity.
    split; [| split; [simpl; lia | reflexivity]].
    exists q. simpl. repeat split; first [done | lia]. }
  destruct (Z.eqb_spec r 9) as [->|H9].
  { eexists. split; [reflexivity |]. rewrite emitsQuad_control by reflexivity.
    split; [| split; [simpl; lia | reflexivity]].
    exists q. simpl. repeat split; first [done | lia]. }
  assert (Hprintable : printable r = true).
  { unfold printable, rune_return, rune_newline, rune_tab.
    destruct (Z.eqb_spec r 13); [done |].
    destruct (Z.eqb_spec r 10); [done |].
    destruct (Z.eqb_spec r 9); done. }
  destruct (Chars f !! r) as [c|] eqn:Hc.
  - rewrite (emitsQuad_known f r c) by done.
    unfold assert_True, mbind, Res_bind, mret, Res_ret. simpl.
    unfold copy_at. simpl. rewrite Hvtx, Hidx, u16_vtx_offset.
    destruct (vertex_offset_fits q n (vertexBuf st)) as [Hlo Hhi]; try done.
    assert (Hl1 : len (vertexBuf st ++ k1) = len (vertexBuf st) + len k1)
      by (unfold len; rewrite length_app; lia).
    assert (Hl2 : len (indexBuf st ++ k2) = len (indexBuf st) + len k2)
      by (unfold len; rewrite length_app; lia).
    assert (Hk1 : 0 ≤ len k1) by (unfold len; lia).
    assert (Hk2 : 0 ≤ len k2) by (unfold len; lia).
    rewrite Hl1, Hl2.
    destruct (Z.leb_spec0 0 (u16 (16 * q))); [| lia].
    destruct (Z.leb_spec0 (u16 (16 * q)) (len (vertexBuf st))); [| lia].
    destruct (Z.leb_spec0 (u16 (16 * q)) (len (vertexBuf st) + len k1)); [| lia].
    destruct (Z.leb_spec0 0 (6 * q)); [| lia].
    destruct (Z.leb_spec0 (6 * q) (len (indexBuf st))); [| lia].
    destruct (Z.leb_spec0 (6 * q) (len (indexBuf st) + len k2)); [| lia].
    simpl. eexists. split; [reflexivity |].
    split; [| split].
    + exists (q + 1). simpl. unfold len.
      rewrite !length_overwrite by lia. fold (len (vertexBuf st)).
      fold (len (indexBuf st)).
      rewrite u16_vtx_next. repeat split; first [lia | reflexivity].
    + simpl. lia.
    + unfold extend. simpl.
      rewrite (overwrite_app (vertexBuf st));
        [| lia | change (len (glyphQuad _ _ _ _)) with 16; lia].
      rewrite (overwrite_app (indexBuf st));
        [| lia | change (len (glyphIndices _)) with 6; lia].
      reflexivity.
  - rewrite (emitsQuad_unknown f r) by done.
    destruct Hp as [->|Hp]; [| destruct (Hp Hprintable) as [? ?]; done].
    exists st. simpl. repeat split; first [done | lia].
Qed.

Lemma quadCount_cons f r runes :
  quadCount f (r :: runes) = (if emitsQuad f r then 1 else 0) + quadCount f runes.
Proof.
  unfold quadCount, len. rewrite filter_cons.
  destruct (decide (emitsQuad f r = true)) as [H|H].
  - rewrite H, length_cons. lia.
  - apply not_true_is_false in H. rewrite H. lia.
Qed.

Lemma printableCount_cons r runes :
  printableCount (r :: runes)
  = (if printable r then 1 else 0) + printableCount runes.
Proof.
  unfold printableCount, len. rewrite filter_cons.
  destruct (decide (printable r = true)) as [H|H].
  - rewrite H, length_cons. lia.
  - apply not_true_is_false in H. rewrite H. lia.
Qed.

Lemma quadCount_app f a b : quadCount f (a ++ b) = quadCount f a + quadCount f b.
Proof.
  unfold quadCount, len. rewrite filter_app, length_app. lia.
Qed.

Lemma printableCount_app a b :
  printableCount (a ++ b) = printableCount a + printableCount b.
Proof.
  unfold printableCount, len. rewrite filter_app, length_app. lia.
Qed.

Lemma quadCount_allGlyphsKnown f runes :
  allGlyphsKnown f runes → quadCount f runes = printableCount runes.
Proof.
  induction 1 as [|r runes Hr _ IH].
  - reflexivity.
  - rewrite quadCount_cons, printableCount_cons, IH. unfold emitsQuad.
    destruct (printable r); [| reflexivity].
    rewrite bool_decide_eq_true_2 by auto. reflexivity.
Qed.

(** The loop: it does not panic when there is room for every rune, it counts
    the quads, and over longer buffers it does the same. *)
Lemma layoutRunes_spec p f twp runes : ∀ n st k1 k2,
  p = Report ∨ allGlyphsKnown f runes →
  fits n st → len runes ≤ n →
  ∃ st', layoutRunes p f twp st runes = Ok st'
         ∧ fits (n - len runes) st'
         ∧ idx st' = idx st + 6 * quadCount f runes
         ∧ layoutRunes p f twp (extend st k1 k2) runes = Ok (extend st' k1 k2).
Proof.
  induction runes as [|r runes IH]; intros n st k1 k2 Hp Hfit Hlen.
  - exists st. simpl. change (len []) with 0. rewrite Z.sub_0_r.
    split; [reflexivity |]. split; [done |].
    split; [unfold quadCount, len; simpl; lia | reflexivity].
  - assert (Hlen' : len (r :: runes) = 1 + len runes)
      by (unfold len; rewrite length_cons; lia).
    assert (Hl0 : 0 ≤ len runes) by (unfold len; lia).
    destruct (layoutRune_spec p f twp st r n k1 k2) as (st1 & H1 & Hfit1 & Hidx1 & Hext1);
      [| done | lia |].
    { destruct Hp as [?|Hp]; [by left | right].
      intros ?. by apply (Forall_inv Hp). }
    destruct (IH (n - 1) st1 k1 k2) as (st' & H2 & Hfit2 & Hidx2 & Hext2);
      [| done | lia |].
    { destruct Hp as [?|Hp]; [by left | right]. by apply (Forall_inv_tail Hp). }
    exists st'. simpl. unfold mbind, Res_bind. rewrite H1, Hext1.
    repeat split; try done.
    + replace (n - len (r :: runes)) with (n - 1 - len runes) by lia. done.
    + rewrite Hidx2, Hidx1, quadCount_cons. destruct (emitsQuad f r); lia.
Qed.

Lemma fits_layoutStart runes : fits (len runes) (layoutStart runes).
Proof.
  exists 0. unfold layoutStart, len. simpl.
  rewrite !length_replicate. repeat split; first [done | lia].
Qed.

Lemma layoutFinish_spec f st n k1 k2 :
  fits n st → 0 ≤ n →
  ∃ out, layoutFinish f st = Ok out
         ∧ layoutFinish f (extend st k1 k2) = Ok out
         ∧ outVertexCount out = vtx st
         ∧ len (outVertices out) = u16 (vtx st * 4)
         ∧ len (outIndices out) = idx st
         ∧ outBounds out = boundsAfter f st.
Proof.
  intros (q & Hq & Hvtx & Hidx & Hvb & Hib) Hn.
  pose proof (u16_range (16 * q)) as Hr.
  pose proof (u16_le (16 * q) ltac:(lia)) as Hle.
  unfold layoutFinish, slice_to, extend. simpl.
  rewrite Hvtx, Hidx, u16_vtx_offset.
  assert (Hl1 : len (vertexBuf st ++ k1) = len (vertexBuf st) + len k1)
    by (unfold len; rewrite length_app; lia).
  assert (Hl2 : len (indexBuf st ++ k2) = len (indexBuf st) + len k2)
    by (unfold len; rewrite length_app; lia).
  assert (Hk1 : 0 ≤ len k1) by (unfold len; lia).
  assert (Hk2 : 0 ≤ len k2) by (unfold len; lia).
  rewrite Hl1, Hl2.
  destruct (Z.leb_spec0 0 (u16 (16 * q))); [| lia].
  destruct (Z.leb_spec0 (u16 (16 * q)) (len (vertexBuf st))); [| lia].
  destruct (Z.leb_spec0 (u16 (16 * q)) (len (vertexBuf st) + len k1)); [| lia].
  destruct (Z.leb_spec0 0 (6 * q)); [| lia].
  destruct (Z.leb_spec0 (6 * q) (len (indexBuf st))); [| lia].
  destruct (Z.leb_spec0 (6 * q) (len (indexBuf st) + len k2)); [| lia].
  simpl. eexists. split; [reflexivity |].
  unfold len in *.
  rewrite !take_app_le by lia.
  split; [reflexivity |]. simpl.
  rewrite !length_take. repeat split; lia.
Qed.

(** Everything [update] computes before it hands the arrays to the mesh. *)
Lemma layoutText_spec p f twp runes :
  p = Report ∨ allGlyphsKnown f runes →
  ∃ st out,
    layoutRunes p f twp (layoutStart runes) runes = Ok st
    ∧ layoutText p f twp runes = Ok out
    ∧ outVertexCount out = u16 (4 * quadCount f runes)
    ∧ len (outVertices out) = u16 (16 * quadCount f runes)
    ∧ len (outIndices out) = 6 * quadCount f runes
    ∧ outBounds out = boundsAfter f st.
Proof.
  intros Hp.
  destruct (layoutRunes_spec p f twp runes (len runes) (layoutStart runes) [] [])
    as (st & Hrun & Hfit & Hidx & _); [done | apply fits_layoutStart | lia |].
  rewrite Z.sub_diag in Hfit.
  destruct (layoutFinish_spec f st 0 [] [] Hfit ltac:(lia))
    as (out & Hfin & _ & Hvc & Hvs & His & Hb).
  exists st, out. unfold layoutText, mbind, Res_bind. rewrite Hrun.
  split; [done |]. split; [done |].
  destruct Hfit as (q & Hq & Hvtx & Hidxq & _).
  assert (q = quadCount f runes) as -> by (simpl in Hidx; lia).
  rewrite Hvc, Hvs, His, Hvtx, u16_vtx_offset.
  repeat split; first [done | simpl in Hidx; lia].
Qed.

(** ** The cursor of the text layout *)

Lemma layoutRune_pen p f twp st r st' :
  layoutRune p f twp st r = Ok st' → pen st' = penStep f twp (pen st) r.
Proof.
  unfold layoutRune, penStep, pen.
  destruct (r =? 13); [intros [= <-]; reflexivity |].
  destruct (r =? 10); [intros [= <-]; reflexivity |].
  destruct (r =? 9); [intros [= <-]; reflexivity |].
  destruct (Chars f !! r) as [c|]; simpl.
  - unfold mbind, Res_bind, mret, Res_ret.
    destruct (copy_at (vertexBuf st) _ _); [| discriminate].
    destruct (copy_at (indexBuf st) _ _); [| discriminate].
    intros [= <-]. reflexivity.
  - unfold assert_True. destruct p; simpl; [discriminate |].
    intros [= <-]. reflexivity.
Qed.

Lemma layoutRunes_pen p f twp runes : ∀ st st',
  layoutRunes p f twp st runes = Ok st' →
  pen st' = foldl (penStep f twp) (pen st) runes.
Proof.
  induction runes as [|r runes IH]; intros st st'; simpl.
  - intros [= <-]. reflexivity.
  - unfold mbind, Res_bind.
    destruct (layoutRune p f twp st r) as [st1|e] eqn:H1; [| discriminate].
    intros H2. rewrite (IH _ _ H2). f_equal. by apply (layoutRune_pen p).
Qed.

(** A tab moves the cursor by [tabWidthPt * scale] and touches nothing else:
    no vertex, no index, no counter. *)
Lemma layoutRune_tab p f twp st :
  layoutRune p f twp st rune_tab
  = Ok (mkCursor (f32_add (origin st) (f32_mul twp (FontScaling f)))
          (baseline st) (maxX st) (vtx st) (idx st) (vertexBuf st) (indexBuf st)).
Proof. reflexivity. Qed.

(** A printable rune without a glyph is skipped when assertions report. *)
Lemma layoutRune_missing f twp st r :
  printable r = true → Chars f !! r = None →
  layoutRune Report f twp st r = Ok st.
Proof.
  unfold printable, rune_return, rune_newline, rune_tab, layoutRune.
  intros Hp Hc.
  destruct (r =? 13); [discriminate |].
  destruct (r =? 10); [discriminate |].
  destruct (r =? 9); [discriminate |].
  rewrite Hc. reflexivity.
Qed.

Lemma penStep_glyph f twp o b m r c :
  printable r = true → Chars f !! r = Some c →
  penStep f twp (o, b, m) r
  = (f32_add o (f32_mul (f32_of_int (Width c)) (FontScaling f)), b, m).
Proof.
  unfold printable, rune_return, rune_newline, rune_tab, penStep.
  intros Hp Hc.
  destruct (r =? 13); [discriminate |].
  destruct (r =? 10); [discriminate |].
  destruct (r =? 9); [discriminate |].
  rewrite Hc. reflexivity.
Qed.

Lemma penStep_newline f twp o b m :
  penStep f twp (o, b, m) rune_newline
  = (f32_zero, f32_sub b (f32_mul (f32_of_int (Height f)) (FontScaling f)),
     if f32_gtb o m then o else m).
Proof. reflexivity. Qed.

(** C7.  For every font of line height 20 in which 'A', 'B' and 'C' advance
    by 10, laying out "AB\nC" gives three quads (vertex count 12, 48 vertex
    floats, 18 indices); after the newline the horizontal cursor is 0 and the
    baseline is -1; and the maximal x of the bounds is 1. *)
Theorem layout_AB_newline_C p f twp cA cB cC :
  Height f = 20 →
  Chars f !! rune_A = Some cA →
  Chars f !! rune_B = Some cB →
  Chars f !! rune_C = Some cC →
  Width cA = 10 → Width cB = 10 → Width cC = 10 →
  ∃ st out,
    layoutRunes p f twp (layoutStart text_AB_C) [rune_A; rune_B; rune_newline] = Ok st
    ∧ origin st = f32_zero
    ∧ baseline st = f32_of_int (-1)
    ∧ (st' ← layoutRunes p f twp st [rune_C]; layoutFinish f st') = Ok out
    ∧ layoutText p f twp text_AB_C = Ok out
    ∧ quadCount f text_AB_C = 3
    ∧ outVertexCount out = 12
    ∧ len (outVertices out) = 48
    ∧ len (outIndices out) = 18
    ∧ (Max (outBounds out)).1 = f32_of_int 1.
Proof.
  intros HH HA HB HC WA WB WC.
  assert (Hknown : allGlyphsKnown f text_AB_C).
  { unfold allGlyphsKnown, text_AB_C.
    repeat first [apply List.Forall_nil | apply List.Forall_cons];
      intros Hp; first [by eauto | discriminate Hp]. }
  assert (Hquads : quadCount f text_AB_C = 3).
  { rewrite (quadCount_allGlyphsKnown _ _ Hknown). reflexivity. }
  destruct (layoutText_spec p f twp text_AB_C (or_intror Hknown))
    as (st4 & out & Hrun & Htext & Hvc & Hvs & His & Hb).
  change text_AB_C with ([rune_A; rune_B; rune_newline] ++ [rune_C]) in Hrun at 2.
  rewrite layoutRunes_app in Hrun. unfold mbind, Res_bind in Hrun.
  destruct (layoutRunes p f twp (layoutStart text_AB_C) [rune_A; rune_B; rune_newline])
    as [st3|e] eqn:Hrun3; [| discriminate].
  pose proof (layoutRunes_pen _ _ _ _ _ _ Hrun3) as Hpen3.
  pose proof (layoutRunes_pen _ _ _ _ _ _ Hrun) as Hpen4.
  rewrite Hpen3 in Hpen4.
  change (pen (layoutStart text_AB_C)) with (f32_zero, f32_zero, f32_zero)
    in Hpen3, Hpen4.
  cbn [foldl] in Hpen3, Hpen4.
  rewrite (penStep_glyph f twp _ _ _ rune_A cA eq_refl HA) in Hpen3, Hpen4.
  rewrite (penStep_glyph f twp _ _ _ rune_B cB eq_refl HB) in Hpen3, Hpen4.
  rewrite penStep_newline in Hpen3, Hpen4.
  rewrite (penStep_glyph f twp _ _ _ rune_C cC eq_refl HC) in Hpen4.
  unfold FontScaling in Hpen3, Hpen4.
  rewrite HH, WA, WB in Hpen3, Hpen4. rewrite WC in Hpen4.
  injection Hpen3 as Ho3 Hb3 Hm3. injection Hpen4 as Ho4 Hb4 Hm4.
  exists st3, out.
  split; [reflexivity |]. split; [done |].
  split; [rewrite Hb3; vm_compute; reflexivity |].
  split.
  { pose proof Htext as Htext'. unfold layoutText in Htext'.
    change text_AB_C with ([rune_A; rune_B; rune_newline] ++ [rune_C]) in Htext' at 2.
    rewrite layoutRunes_app in Htext'. unfold mbind, Res_bind in Htext' |- *.
    rewrite Hrun3 in Htext'. exact Htext'. }
  split; [done |]. split; [done |].
  rewrite Hvc, Hvs, His, Hquads, Hb.
  repeat split; try reflexivity.
  unfold boundsAfter. cbn [Max fst]. rewrite Ho4, Hm4. vm_compute. reflexivity.
Qed.

(** The font [font20] is such a font. *)
Lemma layout_AB_newline_C_witness :
  ∃ st out,
    layoutRunes Report font20 (f32_of_int 40) (layoutStart text_AB_C)
      [rune_A; rune_B; rune_newline] = Ok st
    ∧ origin st = f32_zero
    ∧ baseline st = f32_of_int (-1)
    ∧ (st' ← layoutRunes Report font20 (f32_of_int 40) st [rune_C];
       layoutFinish font20 st') = Ok out
    ∧ layoutText Report font20 (f32_of_int 40) text_AB_C = Ok out
    ∧ quadCount font20 text_AB_C = 3
    ∧ outVertexCount out = 12
    ∧ len (outVertices out) = 48
    ∧ len (outIndices out) = 18
    ∧ (Max (outBounds out)).1 = f32_of_int 1.
Proof.
  apply (layout_AB_newline_C Report font20 (f32_of_int 40) glyph10 glyph10 glyph10);
    reflexivity.
Defined.

(** ** Regeneration under reporting assertions *)

Lemma Text_update_Report engine m out :
  layoutText Report (font m) (tabWidthPt m) (text m) = Ok out →
  Text_update Report engine m = Ok (installed m out).
Proof.
  intros Hout. unfold Text_update, Mesh_SetVertexData, mbind, Res_bind.
  rewrite Hout, AssertValidGeometry_Report. reflexivity.
Qed.

Lemma layoutStart_extend r (a b : list rune) :
  layoutStart (a ++ r :: b)
  = extend (layoutStart (a ++ b)) (replicate 16 f32_zero) (replicate 6 0).
Proof.
  unfold layoutStart, extend.
  cbn [origin baseline maxX vtx idx vertexBuf indexBuf].
  rewrite <- !replicate_add. unfold len. rewrite !length_app, length_cons.
  f_equal; f_equal; lia.
Qed.

(** Laying out a text with a rune that has no glyph gives what laying out
    the text without that rune gives. *)
Lemma layoutText_skips_missing f twp a r b :
  printable r = true → Chars f !! r = None →
  ∃ out, layoutText Report f twp (a ++ r :: b) = Ok out
         ∧ layoutText Report f twp (a ++ b) = Ok out
         ∧ len (outIndices out) = 6 * quadCount f (a ++ r :: b).
Proof.
  intros Hp Hc.
  set (k1 := replicate 16 f32_zero). set (k2 := replicate 6 0).
  assert (Hla : 0 ≤ len a) by (unfold len; lia).
  assert (Hlb : 0 ≤ len b) by (unfold len; lia).
  assert (Hlab : len (a ++ b) = len a + len b)
    by (unfold len; rewrite length_app; lia).
  destruct (layoutRunes_spec Report f twp a (len (a ++ b)) (layoutStart (a ++ b)) k1 k2)
    as (st1 & Ha & Hfit1 & Hidx1 & Hext1);
    [by left | apply fits_layoutStart | lia |].
  destruct (layoutRunes_spec Report f twp b (len (a ++ b) - len a) st1 k1 k2)
    as (st2 & Hb & Hfit2 & Hidx2 & Hext2); [by left | done | lia |].
  replace (len (a ++ b) - len a - len b) with 0 in Hfit2 by lia.
  destruct (layoutFinish_spec f st2 0 k1 k2 Hfit2 ltac:(lia))
    as (out & Hfin & Hfinext & _ & _ & His & _).
  exists out. unfold layoutText.
  rewrite layoutStart_extend. fold k1 k2.
  rewrite !layoutRunes_app. simpl. unfold mbind, Res_bind.
  rewrite Hext1, Ha, (layoutRune_missing f twp _ r Hp Hc), Hext2, Hb.
  split; [done |]. split; [done |].
  rewrite His, Hidx2, Hidx1. simpl.
  rewrite quadCount_app, quadCount_cons, (emitsQuad_unknown f r Hc). lia.
Qed.

(** C8.  With reporting assertions, setting a text that contains a printable
    rune [r] without a glyph in the font does not fail, and it leaves the
    geometry and the bounds that setting the text without [r] leaves; [r]
    itself changes neither the cursor nor the buffers.  The number of
    indices is six per printable rune with a glyph: when every other
    printable rune has a glyph, one quad fewer than there are printable
    runes. *)
Theorem missing_glyph_is_skipped engine m a r b :
  printable r = true →
  Chars (font m) !! r = None →
  ∃ m1 m2,
    Text_Set Report engine (a ++ r :: b) m = Ok m1
    ∧ Text_Set Report engine (a ++ b) m = Ok m2
    ∧ geometry (mesh m1) = geometry (mesh m2)
    ∧ bounds m1 = bounds m2
    ∧ lenI (indices (geometry (mesh m1))) = 6 * quadCount (font m) (a ++ r :: b)
    ∧ (allGlyphsKnown (font m) (a ++ b) →
       quadCount (font m) (a ++ r :: b) = printableCount (a ++ r :: b) - 1)
    ∧ (∀ st, layoutRune Report (font m) (tabWidthPt m) st r = Ok st).
Proof.
  intros Hp Hc.
  destruct (layoutText_skips_missing (font m) (tabWidthPt m) a r b Hp Hc)
    as (out & Hlong & Hshort & His).
  eexists. eexists.
  split; [unfold Text_Set; apply Text_update_Report; exact Hlong |].
  split; [unfold Text_Set; apply Text_update_Report; exact Hshort |].
  split; [reflexivity |]. split; [reflexivity |].
  split; [exact His |].
  split; [| intros st; by apply layoutRune_missing].
  intros Hknown.
  pose proof (quadCount_allGlyphsKnown _ _ Hknown) as Hq.
  rewrite quadCount_app, printableCount_app in Hq.
  rewrite quadCount_app, quadCount_cons, (emitsQuad_unknown _ r Hc).
  rewrite printableCount_app, printableCount_cons, Hp. lia.
Qed.

(** "A?B" in a font without '?': the quad of 'B' is where "AB" has it. *)
Lemma missing_glyph_is_skipped_witness :
  ∃ m1 m2,
    Text_Set Report noEngine ([rune_A] ++ rune_question :: [rune_B])
      (blankText font20) = Ok m1
    ∧ Text_Set Report noEngine ([rune_A] ++ [rune_B]) (blankText font20) = Ok m2
    ∧ geometry (mesh m1) = geometry (mesh m2)
    ∧ bounds m1 = bounds m2
    ∧ lenI (indices (geometry (mesh m1)))
      = 6 * quadCount (font (blankText font20)) ([rune_A] ++ rune_question :: [rune_B])
    ∧ (allGlyphsKnown (font (blankText font20)) ([rune_A] ++ [rune_B]) →
       quadCount (font (blankText font20)) ([rune_A] ++ rune_question :: [rune_B])
       = printableCount ([rune_A] ++ rune_question :: [rune_B]) - 1)
    ∧ (∀ st, layoutRune Report (font (blankText font20))
               (tabWidthPt (blankText font20)) st rune_question = Ok st).
Proof.
  apply (missing_glyph_is_skipped noEngine (blankText font20)
           [rune_A] rune_question [rune_B]); reflexivity.
Defined.

(** ** The setters of the text component *)

(** [SetTabWidth] recomputes the tab width in points from the current font;
    [SetFont] keeps the one computed from the previous font. *)
Lemma Text_SetTabWidth_tabWidthPt p engine w m m' :
  Text_SetTabWidth p engine w m = Ok m' →
  tabWidth m' = w
  ∧ tabWidthPt m' = f32_mul (f32_of_int w) (AvgWidth (font m')).
Proof.
  unfold Text_SetTabWidth, Text_update, mbind, Res_bind, mret, Res_ret. simpl.
  destruct (layoutText _ _ _ _) as [out|e]; [| discriminate].
  destruct (Mesh_SetVertexData _ _ _ _ _ _ _ _ _) as [mesh'|e]; [| discriminate].
  intros [= <-]. split; reflexivity.
Qed.

Lemma Text_SetFont_tabWidthPt p engine font' m m' :
  Text_SetFont p engine font' m = Ok m' →
  font m' = font' ∧ tabWidth m' = tabWidth m ∧ tabWidthPt m' = tabWidthPt m.
Proof.
  unfold Text_SetFont, Text_update, mbind, Res_bind, mret, Res_ret. simpl.
  destruct (layoutText _ _ _ _) as [out|e]; [| discriminate].
  destruct (Mesh_SetVertexData _ _ _ _ _ _ _ _ _) as [mesh'|e]; [| discriminate].
  intros [= <-]. repeat split; reflexivity.
Qed.

(** C6.  A text "\\tA" created with a font of average glyph width 10 and then
    given a font of average glyph width 12 by [SetFont] has the same font,
    text and tab width as the text created with the second font, but not the
    same geometry nor the same bounds: its tabs still advance by four times
    the average width of the first font, not of the current one. *)
Theorem stale_tab_width_after_SetFont p :
  ∃ m1 m2,
    (m ← NewText p textEngine font20 text_tab_A;
     Text_SetFont p textEngine font20wide m) = Ok m1
    ∧ NewText p textEngine font20wide text_tab_A = Ok m2
    ∧ sameInputs m1 m2
    ∧ geometry (mesh m1) ≠ geometry (mesh m2)
    ∧ bounds m1 ≠ bounds m2
    ∧ f32_mul (tabWidthPt m1) (FontScaling (font m1)) = f32_of_int 2
    ∧ specTabAdvance m1 ≠ f32_of_int 2.
Proof.
  destruct p.
  all: eexists; eexists.
  all: split; [vm_compute; reflexivity |].
  all: split; [vm_compute; reflexivity |].
  all: split; [repeat split; reflexivity |].
  all: split; [intros H; vm_compute in H; discriminate |].
  all: split; [intros H; vm_compute in H; discriminate |].
  all: split; [vm_compute; reflexivity |].
  all: intros H; vm_compute in H; discriminate.
Qed.

(** C10.  [SetColor] stores the colour and sets the material's [color]
    uniform; the text, the font, the tab width, the bounds and the geometry
    of the mesh are those of the state it was called on, whatever that state
    is: nothing is regenerated. *)
Theorem SetColor_changes_only_the_color c m :
  text (Text_SetColor c m) = text m
  ∧ font (Text_SetColor c m) = font m
  ∧ tabWidth (Text_SetColor c m) = tabWidth m
  ∧ tabWidthPt (Text_SetColor c m) = tabWidthPt m
  ∧ bounds (Text_SetColor c m) = bounds m
  ∧ geometry (mesh (Text_SetColor c m)) = geometry (mesh m)
  ∧ shaderKey (material (mesh (Text_SetColor c m))) = shaderKey (material (mesh m))
  ∧ textures (material (mesh (Text_SetColor c m))) = textures (material (mesh m))
  ∧ color (Text_SetColor c m) = c
  ∧ uniforms (material (mesh (Text_SetColor c m)))
    = <["color"%string := c]> (uniforms (material (mesh m))).
Proof. repeat split; reflexivity. Qed.

(** ** Further properties of the geometry container *)

(** X1.  [equalStringSlice] decides equality of two attribute lists: same
    length and the same strings in the same order. *)
Theorem equalStringSlice_decides a b :
  (equalStringSlice a b = true ↔ a = b)
  ∧ (equalStringSlice a b = false ↔ a ≠ b).
Proof.
  pose proof (equalStringSlice_eq a b) as H.
  destruct (equalStringSlice a b); split; split; intros; try done;
    try (by apply H); try (intros ?; subst; by assert (false = true) by (by apply H)).
  exfalso. by match goal with Hn : _ ≠ _ |- _ => apply Hn, H end.
Qed.

(** X2.  Whatever a failed assertion does, a [Set], [Append] or
    [AppendGeometry] that panics (a raised assertion, a division by zero, a
    slice out of range) leaves the receiver as it was. *)
Theorem failed_mutation_leaves_receiver p engine op g e :
  (perform p engine op g).2 = Panic e →
  (perform p engine op g).1 = g.
Proof. apply perform_atomic. Qed.

(** With assertions that only report, an empty run appended onto a triangle
    strip divides by its zero vertex count; the strip is untouched. *)
Lemma failed_mutation_leaves_receiver_witness :
  (perform Report noEngine
     (DoAppend 0 [] None gl_TRIANGLE_STRIP position1 InterleavedBuffer)
     (mkGeometry 3 [fl 1; fl 2; fl 3] None gl_TRIANGLE_STRIP position1
        InterleavedBuffer)).1
  = mkGeometry 3 [fl 1; fl 2; fl 3] None gl_TRIANGLE_STRIP position1
      InterleavedBuffer.
Proof.
  apply (failed_mutation_leaves_receiver Report noEngine
           (DoAppend 0 [] None gl_TRIANGLE_STRIP position1 InterleavedBuffer)
           (mkGeometry 3 [fl 1; fl 2; fl 3] None gl_TRIANGLE_STRIP position1
              InterleavedBuffer) RuntimePanic).
  vm_compute. reflexivity.
Defined.

(** What the pass over the indices computes: [okay] records that every index
    is below the vertex count, [minIdx] and [maxIdx] are the bounds of the
    indices seen (or the values they started from). *)
Lemma scanIndices_fold n l : ∀ mn mx ok mn' mx' ok',
  foldl (scanIndex n) (mn, mx, ok) l = (mn', mx', ok') →
  (ok' = true ↔ ok = true ∧ Forall (λ i, i < n) l)
  ∧ (mn' = mn ∨ mn' ∈ l) ∧ mn' ≤ mn ∧ Forall (λ i, mn' ≤ i) l
  ∧ (mx' = mx ∨ mx' ∈ l) ∧ mx ≤ mx' ∧ Forall (λ i, i ≤ mx') l.
Proof.
  induction l as [|i l IH]; intros mn mx ok mn' mx' ok'; simpl.
  - intros [= <- <- <-]. repeat split; auto; try lia; try tauto.
  - intros H. apply IH in H as (Hok & Hmn & Hmnle & Hmnall & Hmx & Hmxle & Hmxall).
    destruct (Z.ltb_spec0 mx i), (Z.ltb_spec0 i mn), (Z.leb_spec0 n i);
      (split; [rewrite Hok, Forall_cons; intuition (first [lia | congruence])|]);
      (split; [destruct Hmn as [->|?]; [first [by left | right; by left] | right; by right] |]);
      (split; [lia |]); (split; [constructor; [lia | done] |]);
      (split; [destruct Hmx as [->|?]; [first [by left | right; by left] | right; by right] |]);
      (split; [lia |]); constructor; first [lia | done].
Qed.

Lemma checkIndices_Abort_Ok vertexCount' l :
  l ≠ [] →
  checkIndices Abort vertexCount' (Some l) = Ok () →
  ∃ mn mx, scanIndices vertexCount' l = (mn, mx, true)
           ∧ vertexCount' ≤ 65535 ∧ vertexCount' - 1 - mx ≤ 0 ∧ mn ≤ 0
           ∧ vertexCount' ≤ len l.
Proof.
  intros Hl. unfold checkIndices, lenI, elems. simpl.
  assert (Hpos : (0 <? len l) = true).
  { apply Z.ltb_lt. unfold len. destruct l; [done | rewrite length_cons; lia]. }
  rewrite Hpos. unfold assert_Func, assert_True, mbind, Res_bind, mret, Res_ret.
  destruct (Z.leb_spec0 vertexCount' 65535); [| discriminate].
  destruct (scanIndices vertexCount' l) as [[mn mx] ok].
  destruct ok; [| discriminate].
  destruct (Z.leb_spec0 (vertexCount' - 1 - mx) 0); [| discriminate].
  destruct (Z.leb_spec0 mn 0); [| discriminate].
  destruct (Z.leb_spec0 vertexCount' (len l)); [| discriminate].
  intros _. exists mn, mx. auto.
Qed.

Lemma validRun_indices engine vertexCount' vertices' l primitiveType'
    vertexAttributes' :
  l ≠ [] →
  uint16Slice (Some l) →
  validRun engine vertexCount' vertices' (Some l) primitiveType' vertexAttributes' →
  1 ≤ vertexCount' ≤ 65535
  ∧ Forall (λ i, i < vertexCount') l
  ∧ 0 ∈ l ∧ vertexCount' - 1 ∈ l
  ∧ vertexCount' ≤ len l.
Proof.
  intros Hl Hu Hvalid.
  apply AssertValidGeometry_Abort_Ok in Hvalid as [(vsz & _ & _ & Hi) _].
  apply checkIndices_Abort_Ok in Hi as (mn & mx & Hscan & H16 & Hmx & Hmn & Hlen);
    [| done].
  unfold scanIndices in Hscan.
  apply scanIndices_fold in Hscan
    as (Hok & Hmn' & _ & Hmnall & Hmx' & Hmxle & Hmxall).
  destruct Hok as [Hok _]. destruct (Hok eq_refl) as [_ Hall].
  unfold uint16Slice in Hu. simpl in Hu.
  destruct l as [|i0 l]; [done |].
  assert (Hi0 : 0 ≤ i0 < vertexCount').
  { apply Forall_inv in Hu. apply Forall_inv in Hall. lia. }
  assert (H0 : 0 ∈ i0 :: l).
  { destruct Hmn' as [->|Hin]; [lia |].
    assert (0 ≤ mn) by (rewrite Forall_forall in Hu; apply (Hu mn Hin)).
    by replace 0 with mn by lia. }
  assert (Hlast : vertexCount' - 1 ∈ i0 :: l).
  { apply Forall_inv in Hmxall.
    destruct Hmx' as [->|Hin]; [lia |].
    assert (mx < vertexCount') by (rewrite Forall_forall in Hall; apply (Hall mx Hin)).
    by replace (vertexCount' - 1) with mx by lia. }
  repeat split; try done; lia.
Qed.

(** X3.  An indexed geometry that passes the validator has between 1 and
    65535 vertices, every index below the vertex count, the first and the
    last vertex referenced, and at least as many indices as vertices. *)
Theorem validated_indices engine vertexCount' vertices' l primitiveType'
    vertexAttributes' :
  l ≠ [] →
  uint16Slice (Some l) →
  validRun engine vertexCount' vertices' (Some l) primitiveType' vertexAttributes' →
  1 ≤ vertexCount' ≤ 65535
  ∧ Forall (λ i, i < vertexCount') l
  ∧ 0 ∈ l ∧ vertexCount' - 1 ∈ l
  ∧ vertexCount' ≤ len l.
Proof. apply validRun_indices. Qed.

Lemma validated_indices_witness :
  1 ≤ 3 ≤ 65535
  ∧ Forall (λ i, i < 3) [0; 1; 2]
  ∧ 0 ∈ [0; 1; 2] ∧ 3 - 1 ∈ [0; 1; 2]
  ∧ 3 ≤ len [0; 1; 2].
Proof.
  apply (validated_indices noEngine 3 [fl 1; fl 2; fl 3] [0; 1; 2]
           gl_TRIANGLE_STRIP position1).
  - discriminate.
  - unfold uint16Slice. simpl. repeat constructor; lia.
  - vm_compute. reflexivity.
Defined.

(** X4.  Without vertices (a vertex count of zero or below) the validator
    passes exactly when there is no vertex data, no index, and the primitive
    type accepts the vertex count; the attribute list is not looked at, and a
    negative vertex count is not refused. *)
Theorem validator_without_vertices engine vertexCount' vertices' indices'
    primitiveType' vertexAttributes' :
  vertexCount' ≤ 0 →
  uint16Slice indices' →
  validRun engine vertexCount' vertices' indices' primitiveType' vertexAttributes'
  ↔ vertices' = [] ∧ lenI indices' = 0 ∧ primitiveRule primitiveType' vertexCount'.
Proof.
  intros Hvc Hu. unfold validRun. rewrite AssertValidGeometry_Abort_Ok.
  unfold selfConsistent, checkVertexData, checkAttributes, effectiveIndexCount.
  replace (0 <? vertexCount') with false by lia.
  unfold assert_True, mbind, Res_bind, mret, Res_ret.
  split.
  - intros [(vsz & Hv & _ & Hi) Hrule].
    assert (Hvs : vertices' = []).
    { destruct vertices'; [done |]. simpl in Hv. discriminate. }
    assert (Hl : lenI indices' = 0).
    { destruct indices' as [[|i l]|]; try done. exfalso.
      apply checkIndices_Abort_Ok in Hi as (mn & mx & Hscan & _); [| done].
      unfold scanIndices in Hscan.
      apply scanIndices_fold in Hscan as (Hok & _).
      destruct Hok as [Hok _]. destruct (Hok eq_refl) as [_ Hall].
      unfold uint16Slice in Hu. simpl in Hu.
      apply Forall_inv in Hu. apply Forall_inv in Hall. lia. }
    rewrite Hl in Hrule. simpl in Hrule. done.
  - intros (-> & Hl & Hrule). rewrite Hl. simpl. split; [| done].
    exists 0. repeat split. unfold checkIndices. rewrite Hl. reflexivity.
Qed.

(** A vertex count of -2 with nothing else passes as Lines. *)
Lemma validator_without_vertices_witness :
  validRun noEngine (-2) [] None gl_LINES []
  ↔ [] = ([] : list float32) ∧ lenI None = 0 ∧ primitiveRule gl_LINES (-2).
Proof.
  apply (validator_without_vertices noEngine (-2) [] None gl_LINES []).
  - lia.
  - constructor.
Defined.

(** X5.  A geometry with vertices that passes the validator declares at
    least one attribute and holds at least one float per attribute and
    vertex. *)
Theorem validated_vertex_data engine vertexCount' vertices' indices'
    primitiveType' vertexAttributes' :
  0 < vertexCount' →
  validRun engine vertexCount' vertices' indices' primitiveType' vertexAttributes' →
  vertexAttributes' ≠ []
  ∧ vertexCount' * len vertexAttributes' ≤ len vertices'.
Proof.
  intros Hvc Hvalid.
  apply AssertValidGeometry_Abort_Ok in Hvalid as [(vsz & Hv & Ha & _) _].
  unfold checkVertexData, checkAttributes in Hv, Ha.
  replace (0 <? vertexCount') with true in Hv, Ha by lia.
  unfold assert_True, mbind, Res_bind, mret, Res_ret in Hv, Ha.
  destruct (f32_eqb _ _); [| discriminate]. injection Hv as <-.
  destruct (Z.ltb_spec0 0 (len vertexAttributes')); [| discriminate].
  destruct (Z.leb_spec0 (len vertexAttributes')
              (Z.quot (len vertices') vertexCount')); [| discriminate].
  split.
  - intros ->. unfold len in *. simpl in *. lia.
  - assert (0 ≤ len vertices') by (unfold len; lia).
    rewrite Z.quot_div_nonneg in * by lia.
    pose proof (Z.mul_div_le (len vertices') vertexCount' Hvc). nia.
Qed.

Lemma validated_vertex_data_witness :
  position1 ≠ [] ∧ 3 * len position1 ≤ len [fl 1; fl 2; fl 3].
Proof.
  apply (validated_vertex_data noEngine 3 [fl 1; fl 2; fl 3] None gl_TRIANGLES
           position1).
  - lia.
  - vm_compute. reflexivity.
Defined.

Lemma checkShaderAttributes_Abort_Ok engine sProg attrs : ∀ acc n,
  checkShaderAttributes Abort engine sProg attrs acc = Ok n →
  Forall (λ a, is_Some (attributeTypes sProg !! a)) attrs
  ∧ n = acc + expectedVertexSize engine sProg attrs.
Proof.
  induction attrs as [|a attrs IH]; intros acc n; simpl.
  - intros [= <-]. split; [constructor | lia].
  - unfold assert_True, mbind, Res_bind.
    destruct (attributeTypes sProg !! a) as [typ|] eqn:Ha; simpl; [| discriminate].
    intros H. apply IH in H as [Hall ->]. split; [constructor; eauto | lia].
Qed.

(** X6.  When the validator is given a shader key and passes, the geometry
    also passes without the key, the shader is loaded, and every attribute of
    the geometry is declared by the shader; if there are vertices, the shader
    declares no more attributes than the geometry lists and the vertex size
    is the sum of the component counts of the listed attributes. *)
Theorem validated_against_shader engine sProgKey vertexCount' vertices' indices'
    primitiveType' vertexAttributes' :
  sProgKey ≠ ""%string →
  AssertValidGeometry Abort engine sProgKey vertexCount' vertices' indices'
    primitiveType' vertexAttributes' = Ok () →
  validRun engine vertexCount' vertices' indices' primitiveType' vertexAttributes'
  ∧ ∃ sProg,
      resolve engine sProgKey = Some sProg
      ∧ Forall (λ a, is_Some (attributeTypes sProg !! a)) vertexAttributes'
      ∧ (0 < vertexCount' →
         Z.of_nat (size (attributeTypes sProg)) ≤ len vertexAttributes'
         ∧ Z.quot (len vertices') vertexCount'
           = expectedVertexSize engine sProg vertexAttributes').
Proof.
  intros Hkey. unfold validRun, AssertValidGeometry, mbind, Res_bind.
  destruct (checkVertexData Abort vertexCount' vertices') as [vsz|e] eqn:Hv;
    [| discriminate].
  destruct (checkAttributes _ _ _ _) as [[]|e]; [| discriminate].
  destruct (checkIndices _ _ _) as [[]|e]; [| discriminate].
  destruct (checkPrimitive _ _ _) as [[]|e]; [| discriminate].
  unfold checkShader. simpl.
  destruct (String.eqb_spec sProgKey ""); [done |].
  unfold assert_Fail, assert_True, mbind, Res_bind, mret, Res_ret.
  destruct (resolve engine sProgKey) as [sProg|]; simpl; [| discriminate].
  destruct (checkShaderAttributes Abort engine sProg vertexAttributes' 0)
    as [sum|e] eqn:Hattrs; [| discriminate].
  apply checkShaderAttributes_Abort_Ok in Hattrs as [Hall ->].
  intros H. split; [reflexivity |]. exists sProg. split; [done |]. split; [done |].
  intros Hvc.
  assert (Hvsz : vsz = Z.quot (len vertices') vertexCount').
  { unfold checkVertexData in Hv. replace (0 <? vertexCount') with true in Hv by lia.
    unfold assert_True, mbind, Res_bind, mret, Res_ret in Hv.
    destruct (f32_eqb _ _); [| discriminate]. by injection Hv as <-. }
  replace (0 <? vertexCount') with true in H by lia. simpl in H.
  destruct (Z.ltb_spec0 (len vertexAttributes')
              (Z.of_nat (size (attributeTypes sProg)))); [discriminate |].
  destruct (Z.eqb_spec vsz (0 + expectedVertexSize engine sProg vertexAttributes'));
    [| discriminate].
  split; lia.
Qed.

(** The quad of a glyph against the shader of the text material. *)
Lemma validated_against_shader_witness :
  validRun textEngine 4 quadGeometryData (Some quadIndices) gl_TRIANGLES
    positionTexCoord
  ∧ ∃ sProg,
      resolve textEngine COL_TEX_2D = Some sProg
      ∧ Forall (λ a, is_Some (attributeTypes sProg !! a)) positionTexCoord
      ∧ (0 < 4 →
         Z.of_nat (size (attributeTypes sProg)) ≤ len positionTexCoord
         ∧ Z.quot (len quadGeometryData) 4
           = expectedVertexSize textEngine sProg positionTexCoord).
Proof.
  apply (validated_against_shader textEngine COL_TEX_2D 4 quadGeometryData
           (Some quadIndices) gl_TRIANGLES positionTexCoord).
  - discriminate.
  - vm_compute. reflexivity.
Defined.

Lemma u16_shift_in_range x n m :
  0 ≤ x < m → 0 < n → n + m + 2 ≤ 65535 → u16 (x + u16 n) = x + n.
Proof.
  intros Hx Hn Hsum. unfold u16.
  rewrite (Z.mod_small n) by lia. apply Z.mod_small. lia.
Qed.

Lemma Geometry_Append_plain_run p engine g vertexCount' vertices' indices'
    primitiveType' vertexAttributes' bufferLayout' :
  0 < vertexCount g →
  primitiveType' ≠ gl_TRIANGLE_STRIP →
  uint16Slice indices' →
  validRun engine vertexCount' vertices' indices' primitiveType' vertexAttributes' →
  compatible g vertexCount' indices' primitiveType' vertexAttributes' bufferLayout' →
  Geometry_Append p engine vertexCount' vertices' indices' primitiveType'
    vertexAttributes' bufferLayout' g
  = (mkGeometry (vertexCount g + vertexCount') (vertices g ++ vertices')
       (mergedIndices g indices')
       (primitiveType g) (vertexAttributes g) (bufferLayout g), Ok ()).
Proof.
  intros Hvc Hpt Hu Hvalid Hcompat.
  rewrite Geometry_Append_nonempty_run by lia.
  rewrite (appendChecks_pass p _ _ _ _ _ _ _ _ Hvalid Hcompat).
  destruct (Z.eqb_spec primitiveType' gl_TRIANGLE_STRIP) as [?|_]; [done |].
  unfold mret, GeomM_ret. cbn beta iota. rewrite appendData_run.
  f_equal. f_equal. unfold mergedIndices.
  destruct Hcompat as (_ & _ & Hsum & Hsame & _).
  assert (Hmap : map (λ x, u16 (x + u16 (vertexCount g))) (elems indices')
                 = map (λ x, x + vertexCount g) (elems indices')).
  { apply map_ext_in. intros x Hx%list_elem_of_In.
    destruct indices' as [[|i l]|]; simpl in Hx;
      [by apply elem_of_nil in Hx | | by apply elem_of_nil in Hx].
    assert (Hall : Forall (λ i, i < vertexCount') (i :: l)).
    { by apply (validRun_indices engine vertexCount' vertices' (i :: l)
                  primitiveType' vertexAttributes'). }
    unfold uint16Slice in Hu. simpl in Hu.
    rewrite Forall_forall in Hu, Hall.
    specialize (Hu x Hx). specialize (Hall x Hx). simpl in *.
    apply (u16_shift_in_range x (vertexCount g) vertexCount'); lia. }
  destruct (indices g) as [gi|] eqn:Hgi; simpl.
  - rewrite to_nat_len, take_app_length, drop_app_length. by rewrite Hmap.
  - destruct indices' as [l|]; simpl; [| done].
    destruct Hsame as [_ Hs]. destruct Hs as [? ?]; [eauto | done].
Qed.

(** X7.  Appending a valid, compatible run of Points, Lines or Triangles
    onto a geometry with vertices succeeds whatever a failed assertion does:
    the vertex counts add up, the vertex data is concatenated, and the
    incoming indices follow the existing ones, each moved up by the previous
    vertex count, without wrap-around. *)
Theorem plain_append p engine g vertexCount' vertices' indices' primitiveType'
    vertexAttributes' bufferLayout' :
  0 < vertexCount g →
  primitiveType' ≠ gl_TRIANGLE_STRIP →
  uint16Slice indices' →
  validRun engine vertexCount' vertices' indices' primitiveType' vertexAttributes' →
  compatible g vertexCount' indices' primitiveType' vertexAttributes' bufferLayout' →
  Geometry_Append p engine vertexCount' vertices' indices' primitiveType'
    vertexAttributes' bufferLayout' g
  = (mkGeometry (vertexCount g + vertexCount') (vertices g ++ vertices')
       (mergedIndices g indices')
       (primitiveType g) (vertexAttributes g) (bufferLayout g), Ok ()).
Proof. apply Geometry_Append_plain_run. Qed.

(** Two indexed triangles of three one-float vertices each. *)
Lemma plain_append_witness :
  Geometry_Append Abort noEngine 3 [fl 4; fl 5; fl 6] (Some [0; 1; 2]) gl_TRIANGLES
    position1 InterleavedBuffer
    (mkGeometry 3 [fl 1; fl 2; fl 3] (Some [2; 1; 0]) gl_TRIANGLES position1
       InterleavedBuffer)
  = (mkGeometry 6 [fl 1; fl 2; fl 3; fl 4; fl 5; fl 6] (Some [2; 1; 0; 3; 4; 5])
       gl_TRIANGLES position1 InterleavedBuffer, Ok ()).
Proof.
  apply (plain_append Abort noEngine
           (mkGeometry 3 [fl 1; fl 2; fl 3] (Some [2; 1; 0]) gl_TRIANGLES position1
              InterleavedBuffer)
           3 [fl 4; fl 5; fl 6] (Some [0; 1; 2]) gl_TRIANGLES position1
           InterleavedBuffer).
  - simpl. lia.
  - discriminate.
  - unfold uint16Slice. simpl. repeat constructor; lia.
  - vm_compute. reflexivity.
  - unfold compatible, appendable. simpl.
    repeat split; try reflexivity; try lia; eauto.
Defined.

Lemma len_lastFloats n (vs : list float32) :
  0 ≤ n ≤ len vs → len (lastFloats n vs) = n.
Proof. unfold lastFloats, len. rewrite length_drop. lia. Qed.

Lemma len_firstFloats n (vs : list float32) :
  0 ≤ n ≤ len vs → len (firstFloats n vs) = n.
Proof. unfold firstFloats, len. rewrite length_take. lia. Qed.

Lemma len_app {A : Type} (a b : list A) : len (a ++ b) = len a + len b.
Proof. unfold len. rewrite length_app. lia. Qed.

Lemma validState_sized (g : Geometry) s :
  len (vertices g) = vertexCount g * s →
  (∀ l, indices g = Some l → Forall (λ i, i < vertexCount g) l) →
  validState g.
Proof. intros Hs Hi. split; [by exists s | done]. Qed.

(** X8.  [Append] keeps a geometry valid when the incoming run has the
    vertex size of the receiver: for Points, Lines, Triangles and for
    non-indexed triangle strips, after appending a valid compatible run with
    a vertex count that is not negative, the vertex data is again a whole
    number of vertices of that size and every index is below the vertex
    count. *)
Theorem append_keeps_validity p engine g vertexCount' vertices' indices'
    primitiveType' vertexAttributes' bufferLayout' vertexSize :
  0 < vertexCount g →
  0 ≤ vertexCount' →
  len (vertices g) = vertexCount g * vertexSize →
  (∀ l, indices g = Some l → Forall (λ i, i < vertexCount g) l) →
  len vertices' = vertexCount' * vertexSize →
  uint16Slice indices' →
  (primitiveType' = gl_TRIANGLE_STRIP → indices' = None) →
  validRun engine vertexCount' vertices' indices' primitiveType' vertexAttributes' →
  compatible g vertexCount' indices' primitiveType' vertexAttributes' bufferLayout' →
  ∃ g', Geometry_Append p engine vertexCount' vertices' indices' primitiveType'
          vertexAttributes' bufferLayout' g = (g', Ok ())
        ∧ len (vertices g') = vertexCount g' * vertexSize
        ∧ (∀ l, indices g' = Some l → Forall (λ i, i < vertexCount g') l)
        ∧ validState g'.
Proof.
  intros Hvc Hvc' Hsz Hidx Hsz' Hu Hstrip Hvalid Hcompat.
  assert (Hs : 0 ≤ vertexSize).
  { pose proof (Nat2Z.is_nonneg (length (vertices g))). unfold len in Hsz. nia. }
  destruct (decide (primitiveType' = gl_TRIANGLE_STRIP)) as [->|Hpt].
  - rewrite (Hstrip eq_refl) in *.
    assert (HN2 : 2 ≤ vertexCount').
    { apply AssertValidGeometry_Abort_Ok in Hvalid as [_ Hrule].
      unfold primitiveRule, effectiveIndexCount, gl_POINTS, gl_LINE_LOOP,
        gl_LINE_STRIP, gl_LINES, gl_TRIANGLES, gl_TRIANGLE_STRIP, gl_TRIANGLE_FAN
        in Hrule. simpl in Hrule. lia. }
    assert (Hnone : indices g = None).
    { destruct Hcompat as (_ & _ & _ & [Hs1 _] & _).
      destruct (indices g); [| done]. destruct Hs1 as [? ?]; [eauto | done]. }
    rewrite Geometry_Append_nonempty_run by lia.
    rewrite (appendChecks_pass p _ _ _ _ _ _ _ _ Hvalid Hcompat).
    change (gl_TRIANGLE_STRIP =? gl_TRIANGLE_STRIP) with true. cbn iota.
    rewrite (stitch_nonindexed_run vertexCount' vertices' g vertexSize);
      [| lia | rewrite Hsz', Z.mul_comm; apply Z.quot_mul; lia | nia | nia].
    rewrite appendData_run. eexists. split; [reflexivity |].
    cbn [vertexCount vertices indices]. rewrite Hnone.
    cbn [go_append lenI elems default offsetIndicesFrom].
    assert (Hlen : len ((vertices g ++ lastFloats vertexSize (vertices g)
                   ++ firstFloats vertexSize vertices'
                   ++ (if Z.rem (vertexCount g) 2 =? 0 then []
                       else firstFloats vertexSize vertices')) ++ vertices')
            = (vertexCount g + (2 + Z.rem (vertexCount g) 2) + vertexCount')
              * vertexSize).
    { rewrite !len_app, len_lastFloats, len_firstFloats by nia.
      rewrite rem2_eqb_even, rem2_stitch_count by lia.
      destruct (Z.even (vertexCount g)).
      - change (len []) with 0. lia.
      - rewrite len_firstFloats by nia. lia. }
    split; [exact Hlen |]. split; [done |].
    apply (validState_sized _ vertexSize); [exact Hlen | done].
  - rewrite (Geometry_Append_plain_run p engine g) by done.
    eexists. split; [reflexivity |]. cbn [vertexCount vertices indices].
    assert (Hlen : len (vertices g ++ vertices')
                   = (vertexCount g + vertexCount') * vertexSize)
      by (rewrite len_app; lia).
    assert (Hall : ∀ l, mergedIndices g indices' = Some l →
                        Forall (λ i, i < vertexCount g + vertexCount') l).
    { unfold mergedIndices. intros l Hl.
      destruct (indices g) as [gi|] eqn:Hgi; [| done]. injection Hl as <-.
      apply Forall_app. split.
      - eapply Forall_impl; [by apply Hidx |]. simpl. lia.
      - apply Forall_map.
        destruct indices' as [[|i l]|]; simpl; try constructor.
        + destruct (validRun_indices engine vertexCount' vertices' (i :: l)
                      primitiveType' vertexAttributes') as (_ & Hlt & _); try done.
          apply Forall_inv in Hlt. simpl. lia.
        + destruct (validRun_indices engine vertexCount' vertices' (i :: l)
                      primitiveType' vertexAttributes') as (_ & Hlt & _); try done.
          apply Forall_inv_tail in Hlt.
          eapply Forall_impl; [exact Hlt |]. simpl. lia. }
    split; [exact Hlen |]. split; [exact Hall |].
    apply (validState_sized _ vertexSize); [exact Hlen | exact Hall].
Qed.

Lemma append_keeps_validity_witness :
  ∃ g', Geometry_Append Abort noEngine 3 [fl 4; fl 5; fl 6] (Some [0; 1; 2])
          gl_TRIANGLES position1 InterleavedBuffer
          (mkGeometry 3 [fl 1; fl 2; fl 3] (Some [2; 1; 0]) gl_TRIANGLES position1
             InterleavedBuffer) = (g', Ok ())
        ∧ len (vertices g') = vertexCount g' * 1
        ∧ (∀ l, indices g' = Some l → Forall (λ i, i < vertexCount g') l)
        ∧ validState g'.
Proof.
  apply (append_keeps_validity Abort noEngine
           (mkGeometry 3 [fl 1; fl 2; fl 3] (Some [2; 1; 0]) gl_TRIANGLES position1
              InterleavedBuffer)
           3 [fl 4; fl 5; fl 6] (Some [0; 1; 2]) gl_TRIANGLES position1
           InterleavedBuffer 1).
  - simpl. lia.
  - lia.
  - reflexivity.
  - simpl. intros l [= <-]. repeat constructor.
  - reflexivity.
  - unfold uint16Slice. simpl. repeat constructor; lia.
  - discriminate.
  - vm_compute. reflexivity.
  - unfold compatible, appendable. simpl.
    repeat split; try reflexivity; try lia; eauto.
Defined.

Lemma extendsGeometry_refl g : extendsGeometry g g.
Proof. repeat split; reflexivity. Qed.

Lemma extendsGeometry_trans g1 g2 g3 :
  extendsGeometry g1 g2 → extendsGeometry g2 g3 → extendsGeometry g1 g3.
Proof.
  intros (Ht & Ha & Hb & Hv & Hi) (Ht' & Ha' & Hb' & Hv' & Hi').
  repeat split; try congruence; etrans; eassumption.
Qed.

Lemma elems_go_append s more : elems (go_append s more) = elems s ++ more.
Proof. destruct s as [l|]; [reflexivity |]. destruct more; reflexivity. Qed.

Lemma elems_offsetIndicesFrom s d more :
  elems (offsetIndicesFrom (lenI s) d (go_append s more))
  = elems s ++ map (λ x, u16 (x + d)) more.
Proof.
  destruct s as [l|]; simpl.
  - by rewrite to_nat_len, take_app_length, drop_app_length.
  - destruct more; reflexivity.
Qed.

Ltac solve_extends :=
  repeat split;
  cbn [fst vertexCount vertices indices primitiveType vertexAttributes
       bufferLayout];
  rewrite ?elems_offsetIndicesFrom, ?elems_go_append, <- ?app_assoc;
  first [reflexivity | apply prefix_app_r; reflexivity].

Lemma stitchTriangleStrip_extends vertexCount' vertices' indices' g :
  extendsGeometry g (stitchTriangleStrip vertexCount' vertices' indices' g).1.
Proof.
  unfold stitchTriangleStrip.
  unfold mbind, GeomM_bind, liftR, getG, set_vertices, set_indices,
    set_vertexCount, mret, GeomM_ret.
  destruct indices' as [l|].
  - destruct (firstIndex (Some l)) as [i0|e]; [| apply extendsGeometry_refl].
    cbn beta iota delta [vertexCount vertices indices primitiveType
                          vertexAttributes bufferLayout].
    destruct (negb (Z.rem (vertexCount g) 2 =? 0)); solve_extends.
  - destruct (go_div (len vertices') vertexCount') as [vsz|e];
      [| apply extendsGeometry_refl].
    cbn beta iota.
    destruct (slice_from (vertices g) _) as [lv|e]; [| apply extendsGeometry_refl].
    cbn beta iota.
    destruct (slice_to vertices' vsz) as [fv|e]; [| apply extendsGeometry_refl].
    cbn beta iota delta [vertexCount vertices indices primitiveType
                          vertexAttributes bufferLayout].
    destruct (negb (Z.rem (vertexCount g) 2 =? 0)); solve_extends.
Qed.

Lemma appendData_extends vertexCount' vertices' indices' g :
  extendsGeometry g (appendData vertexCount' vertices' indices' g).1.
Proof.
  rewrite appendData_run. solve_extends.
Qed.

(** X9.  On a geometry with vertices, [Append] only ever adds at the end:
    whatever the arguments, whatever a failed assertion does, and whether it
    succeeds or panics, the primitive type, the attribute list and the buffer
    layout are kept, and the previous vertex data and indices are the
    beginning of the new ones. *)
Theorem append_only_adds p engine vertexCount' vertices' indices' primitiveType'
    vertexAttributes' bufferLayout' g :
  vertexCount g ≠ 0 →
  extendsGeometry g
    (Geometry_Append p engine vertexCount' vertices' indices' primitiveType'
       vertexAttributes' bufferLayout' g).1.
Proof.
  intros Hvc. rewrite Geometry_Append_nonempty_run by done.
  destruct (appendChecks _ _ _ _ _ _ _ _ _) as [[]|e];
    [| apply extendsGeometry_refl].
  pose proof (stitchTriangleStrip_extends vertexCount' vertices' indices' g) as Hst.
  destruct (primitiveType' =? gl_TRIANGLE_STRIP).
  - destruct (stitchTriangleStrip vertexCount' vertices' indices' g) as [g1 [[]|e]];
      [| exact Hst].
    eapply extendsGeometry_trans; [exact Hst | apply appendData_extends].
  - apply appendData_extends.
Qed.

(** With assertions that only report, lines are appended onto triangles:
    the triangles' data is still the beginning of the result. *)
Lemma append_only_adds_witness :
  extendsGeometry triangles3
    (Geometry_Append Report noEngine 2 [fl 7; fl 8] None gl_LINES position1
       InterleavedBuffer triangles3).1.
Proof.
  apply (append_only_adds Report noEngine 2 [fl 7; fl 8] None gl_LINES position1
           InterleavedBuffer triangles3).
  simpl. lia.
Defined.

(** ** Further properties of the text layout *)

Lemma printable_cases r :
  printable r = negb (r =? 13) && negb (r =? 10) && negb (r =? 9).
Proof. reflexivity. Qed.

Lemma layoutRune_missing_Abort f twp st r :
  printable r = true → Chars f !! r = None →
  layoutRune Abort f twp st r = Panic GlyphLookupMiss.
Proof.
  rewrite printable_cases. unfold layoutRune. intros Hp Hc.
  destruct (r =? 13); [discriminate |].
  destruct (r =? 10); [discriminate |].
  destruct (r =? 9); [discriminate |].
  rewrite Hc. reflexivity.
Qed.

(** One iteration over longer buffers: the same outcome, panics included. *)
Lemma layoutRune_extend p f twp st r n k1 k2 :
  fits n st → 1 ≤ n →
  layoutRune p f twp (extend st k1 k2) r
  = mapRes (λ s, extend s k1 k2) (layoutRune p f twp st r)
  ∧ ∀ st', layoutRune p f twp st r = Ok st' → fits (n - 1) st'.
Proof.
  intros Hfit Hn.
  destruct (printable r) eqn:Hp; [destruct (Chars f !! r) as [c|] eqn:Hc |].
  - destruct (layoutRune_spec p f twp st r n k1 k2) as (st1 & H1 & Hf1 & _ & He1);
      [right; rewrite Hc; eauto | done | done |].
    rewrite H1, He1. split; [reflexivity |]. by intros st' [= <-].
  - destruct p.
    + rewrite !layoutRune_missing_Abort by done. split; [reflexivity | discriminate].
    + destruct (layoutRune_spec Report f twp st r n k1 k2)
        as (st1 & H1 & Hf1 & _ & He1); [by left | done | done |].
      rewrite H1, He1. split; [reflexivity |]. by intros st' [= <-].
  - destruct (layoutRune_spec p f twp st r n k1 k2) as (st1 & H1 & Hf1 & _ & He1);
      [right; rewrite Hp; discriminate | done | done |].
    rewrite H1, He1. split; [reflexivity |]. by intros st' [= <-].
Qed.

Lemma layoutRunes_extend p f twp runes : ∀ n st k1 k2,
  fits n st → len runes ≤ n →
  layoutRunes p f twp (extend st k1 k2) runes
  = mapRes (λ s, extend s k1 k2) (layoutRunes p f twp st runes)
  ∧ ∀ st', layoutRunes p f twp st runes = Ok st' → fits (n - len runes) st'.
Proof.
  induction runes as [|r runes IH]; intros n st k1 k2 Hfit Hlen.
  - simpl. split; [reflexivity |]. intros st' [= <-].
    change (len []) with 0. by rewrite Z.sub_0_r.
  - assert (Hlen' : len (r :: runes) = 1 + len runes)
      by (unfold len; rewrite length_cons; lia).
    assert (Hl0 : 0 ≤ len runes) by (unfold len; lia).
    destruct (layoutRune_extend p f twp st r n k1 k2) as [He Hf]; [done | lia |].
    simpl. unfold mbind, Res_bind. rewrite He.
    destruct (layoutRune p f twp st r) as [st1|e]; simpl; [| split; [done | discriminate]].
    destruct (IH (n - 1) st1 k1 k2) as [He' Hf']; [by apply Hf | lia |].
    rewrite He'. split; [reflexivity |].
    intros st' H. replace (n - len (r :: runes)) with (n - 1 - len runes) by lia.
    by apply Hf'.
Qed.

(** A rune that every iteration passes over can be dropped from the text. *)
Lemma layoutText_drop_ignored p f twp a r b :
  (∀ st, layoutRune p f twp st r = Ok st) →
  layoutText p f twp (a ++ r :: b) = layoutText p f twp (a ++ b).
Proof.
  intros Hr.
  set (k1 := replicate 16 f32_zero). set (k2 := replicate 6 0).
  assert (Hla : 0 ≤ len a) by (unfold len; lia).
  assert (Hlb : 0 ≤ len b) by (unfold len; lia).
  assert (Hlab : len (a ++ b) = len a + len b)
    by (unfold len; rewrite length_app; lia).
  unfold layoutText. rewrite layoutStart_extend. fold k1 k2.
  rewrite !layoutRunes_app.
  destruct (layoutRunes_extend p f twp a (len (a ++ b)) (layoutStart (a ++ b)) k1 k2)
    as [Ha Hfa]; [apply fits_layoutStart | lia |].
  unfold mbind, Res_bind. rewrite Ha.
  destruct (layoutRunes p f twp (layoutStart (a ++ b)) a) as [st1|e]; simpl;
    [| reflexivity].
  simpl layoutRunes. unfold mbind, Res_bind. rewrite Hr. cbn beta iota.
  destruct (layoutRunes_extend p f twp b (len (a ++ b) - len a) st1 k1 k2)
    as [Hb Hfb]; [by apply Hfa | lia |].
  rewrite Hb.
  destruct (layoutRunes p f twp st1 b) as [st2|e]; simpl; [| reflexivity].
  specialize (Hfb st2 eq_refl).
  replace (len (a ++ b) - len a - len b) with 0 in Hfb by lia.
  destruct (layoutFinish_spec f st2 0 k1 k2 Hfb ltac:(lia)) as (out & H1 & H2 & _).
  by rewrite H1, H2.
Qed.

(** X13.  Carriage returns have no effect: the layout of a text is the
    layout of the text without one of its carriage returns, with the same
    vertices, indices and bounds, or the same panic. *)
Theorem carriage_return_is_ignored p f twp a b :
  layoutText p f twp (a ++ rune_return :: b) = layoutText p f twp (a ++ b).
Proof. apply layoutText_drop_ignored. intros st. reflexivity. Qed.

(** X10.  The layout never runs out of its buffers, although the vertex
    counter is a [uint16]: when assertions report, or every printable rune
    has a glyph, it yields six indices per emitted quad, a vertex count of
    four per quad modulo 65536, and sixteen vertex floats per quad modulo
    65536. *)
Theorem layout_counts p f twp runes :
  p = Report ∨ allGlyphsKnown f runes →
  ∃ out, layoutText p f twp runes = Ok out
         ∧ len (outIndices out) = 6 * quadCount f runes
         ∧ outVertexCount out = (4 * quadCount f runes) mod 65536
         ∧ len (outVertices out) = (16 * quadCount f runes) mod 65536.
Proof.
  intros Hp.
  destruct (layoutText_spec p f twp runes Hp)
    as (st & out & _ & Htext & Hvc & Hvs & His & _).
  exists out. auto.
Qed.

Lemma layout_counts_witness :
  ∃ out, layoutText Abort font20 (f32_of_int 40) text_AB_C = Ok out
         ∧ len (outIndices out) = 6 * quadCount font20 text_AB_C
         ∧ outVertexCount out = (4 * quadCount font20 text_AB_C) mod 65536
         ∧ len (outVertices out) = (16 * quadCount font20 text_AB_C) mod 65536.
Proof.
  apply (layout_counts Abort font20 (f32_of_int 40) text_AB_C).
  right. unfold allGlyphsKnown, text_AB_C.
  repeat first [apply List.Forall_nil | apply List.Forall_cons];
    intros Hp; first [by eauto | discriminate Hp].
Defined.

Lemma layoutRune_glyph p f twp st r c :
  printable r = true → Chars f !! r = Some c →
  0 ≤ u16 (vtx st * 4) ≤ len (vertexBuf st) →
  0 ≤ idx st ≤ len (indexBuf st) →
  layoutRune p f twp st r
  = Ok (mkCursor
          (f32_add (origin st) (f32_mul (f32_of_int (Width c)) (FontScaling f)))
          (baseline st) (maxX st) (u16 (vtx st + 4)) (idx st + 6)
          (overwrite (vertexBuf st) (u16 (vtx st * 4)) (glyphQuad f st r c))
          (overwrite (indexBuf st) (idx st) (glyphIndices (vtx st)))).
Proof.
  rewrite printable_cases. unfold layoutRune.
  intros Hp Hc Hv Hi.
  destruct (r =? 13); [discriminate |].
  destruct (r =? 10); [discriminate |].
  destruct (r =? 9); [discriminate |].
  rewrite Hc. unfold assert_True, copy_at, mbind, Res_bind, mret, Res_ret. simpl.
  destruct (Z.leb_spec0 0 (u16 (vtx st * 4))); [| lia].
  destruct (Z.leb_spec0 (u16 (vtx st * 4)) (len (vertexBuf st))); [| lia].
  destruct (Z.leb_spec0 0 (idx st)); [| lia].
  destruct (Z.leb_spec0 (idx st) (len (indexBuf st))); [| lia].
  reflexivity.
Qed.

(** A rune that emits no quad leaves the buffers and the counters alone. *)
Lemma layoutRune_buffers p f twp st r st' :
  emitsQuad f r = false →
  layoutRune p f twp st r = Ok st' →
  vertexBuf st' = vertexBuf st ∧ indexBuf st' = indexBuf st
  ∧ vtx st' = vtx st ∧ idx st' = idx st.
Proof.
  unfold emitsQuad. rewrite printable_cases. unfold layoutRune.
  destruct (r =? 13); [intros _ [= <-]; done |].
  destruct (r =? 10); [intros _ [= <-]; done |].
  destruct (r =? 9); [intros _ [= <-]; done |].
  simpl. destruct (Chars f !! r) as [c|]; simpl; [discriminate |].
  intros _. unfold assert_True. destruct p; simpl; [discriminate |].
  intros [= <-]. done.
Qed.

Lemma quadCount_nonneg f runes : 0 ≤ quadCount f runes.
Proof. unfold quadCount, len. lia. Qed.

Lemma len_layoutQuads f twp runes : ∀ pn,
  len (layoutQuads f twp pn runes) = 16 * quadCount f runes.
Proof.
  induction runes as [|r runes IH]; intros pn; simpl.
  - reflexivity.
  - rewrite len_app, IH, quadCount_cons. unfold emitsQuad.
    destruct (printable r); simpl; [| change (len []) with 0; lia].
    destruct (Chars f !! r); simpl.
    + change (len (glyphQuad _ _ _ _)) with 16. lia.
    + change (len []) with 0. lia.
Qed.

Lemma len_layoutIndices f runes : ∀ k,
  len (layoutIndices f k runes) = 6 * quadCount f runes.
Proof.
  induction runes as [|r runes IH]; intros k; simpl.
  - reflexivity.
  - rewrite quadCount_cons. destruct (emitsQuad f r).
    + specialize (IH (k + 1)). unfold len in *. cbn [length]. lia.
    + rewrite IH. lia.
Qed.

Lemma overwrite_at_end {A : Type} (Q Z1 src : list A) off :
  off = len Q → len src ≤ len Z1 →
  overwrite (Q ++ Z1) off src = (Q ++ src) ++ drop (length src) Z1.
Proof.
  unfold overwrite, len. intros -> Hfit.
  rewrite Nat2Z.id, take_app_length.
  rewrite take_ge by (rewrite length_app; lia).
  rewrite drop_app_ge by lia.
  replace (length Q + length src - length Q)%nat with (length src) by lia.
  by rewrite <- app_assoc.
Qed.

Lemma glyphIndices_small k :
  0 ≤ k < 16383 →
  glyphIndices (4 * k) = [4 * k; 4 * k + 1; 4 * k + 2; 4 * k + 2; 4 * k + 3; 4 * k].
Proof.
  intros Hk. unfold glyphIndices. by rewrite !u16_small by lia.
Qed.

Lemma layoutQuads_emit f twp pn r c runes :
  printable r = true → Chars f !! r = Some c →
  layoutQuads f twp pn (r :: runes)
  = glyphQuad f (penCursor pn) r c ++ layoutQuads f twp (penStep f twp pn r) runes.
Proof. intros Hp Hc. cbn [layoutQuads]. by rewrite Hp, Hc. Qed.

Lemma layoutQuads_skip f twp pn r runes :
  emitsQuad f r = false →
  layoutQuads f twp pn (r :: runes) = layoutQuads f twp (penStep f twp pn r) runes.
Proof.
  unfold emitsQuad. intros He. cbn [layoutQuads].
  destruct (printable r); [| done].
  destruct (Chars f !! r); [discriminate | done].
Qed.

Lemma layoutIndices_emit f k r runes :
  emitsQuad f r = true →
  layoutIndices f k (r :: runes)
  = [4 * k; 4 * k + 1; 4 * k + 2; 4 * k + 2; 4 * k + 3; 4 * k]
    ++ layoutIndices f (k + 1) runes.
Proof. intros He. cbn [layoutIndices]. by rewrite He. Qed.

Lemma layoutIndices_skip f k r runes :
  emitsQuad f r = false →
  layoutIndices f k (r :: runes) = layoutIndices f k runes.
Proof. intros He. cbn [layoutIndices]. by rewrite He. Qed.

(** The loop on a text that stays below 4096 quads: the buffers are filled
    front to back with the quads and indices of the text. *)
Lemma layoutRunes_content p f twp runes : ∀ st q Q I Z1 Z2,
  p = Report ∨ allGlyphsKnown f runes →
  vertexBuf st = Q ++ Z1 → indexBuf st = I ++ Z2 →
  len Q = 16 * q → len I = 6 * q →
  vtx st = 4 * q → idx st = 6 * q →
  0 ≤ q → q + quadCount f runes ≤ 4096 →
  16 * len runes ≤ len Z1 → 6 * len runes ≤ len Z2 →
  ∃ st' Z1' Z2',
    layoutRunes p f twp st runes = Ok st'
    ∧ vertexBuf st' = (Q ++ layoutQuads f twp (pen st) runes) ++ Z1'
    ∧ indexBuf st' = (I ++ layoutIndices f q runes) ++ Z2'
    ∧ vtx st' = 4 * (q + quadCount f runes)
    ∧ idx st' = 6 * (q + quadCount f runes)
    ∧ pen st' = foldl (penStep f twp) (pen st) runes.
Proof.
  induction runes as [|r runes IH];
    intros st q Q I Z1 Z2 Hp HQ HI HlQ HlI Hvtx Hidx Hq Hmax HZ1 HZ2.
  - exists st, Z1, Z2. simpl. rewrite !app_nil_r.
    change (quadCount f []) with 0. rewrite Z.add_0_r.
    repeat split; first [reflexivity | assumption].
  - assert (Hlen' : len (r :: runes) = 1 + len runes)
      by (unfold len; rewrite length_cons; lia).
    assert (Hl0 : 0 ≤ len runes) by (unfold len; lia).
    rewrite Hlen' in HZ1, HZ2. rewrite quadCount_cons in Hmax.
    pose proof (quadCount_nonneg f runes) as Hqc.
    assert (Hp' : p = Report ∨ allGlyphsKnown f runes).
    { destruct Hp as [?|Hp]; [by left | right]. by apply (Forall_inv_tail Hp). }
    simpl layoutRunes. unfold mbind, Res_bind.
    destruct (emitsQuad f r) eqn:He.
    + (* a quad is emitted *)
      unfold emitsQuad in He. apply andb_true_iff in He as [Hpr Hsome].
      apply bool_decide_eq_true in Hsome. destruct Hsome as [c Hc].
      assert (Hoff : u16 (vtx st * 4) = len Q).
      { rewrite Hvtx, HlQ. rewrite u16_small by lia. lia. }
      rewrite (layoutRune_glyph p f twp st r c Hpr Hc).
      2:{ rewrite Hoff, HQ, len_app. unfold len. lia. }
      2:{ rewrite Hidx, HI, len_app, HlI. unfold len. lia. }
      rewrite HQ, HI, Hoff, Hidx, Hvtx.
      rewrite (overwrite_at_end Q Z1) by
        (first [reflexivity | change (len (glyphQuad _ _ _ _)) with 16; lia]).
      rewrite (overwrite_at_end I Z2) by
        (first [lia | change (len (glyphIndices _)) with 6; lia]).
      set (st1 := mkCursor _ _ _ _ _ _ _).
      assert (A1 : vertexBuf st1
                   = (Q ++ glyphQuad f st r c)
                     ++ drop (length (glyphQuad f st r c)) Z1) by reflexivity.
      assert (A2 : indexBuf st1
                   = (I ++ glyphIndices (4 * q))
                     ++ drop (length (glyphIndices (4 * q))) Z2) by reflexivity.
      assert (A3 : len (Q ++ glyphQuad f st r c) = 16 * (q + 1)).
      { rewrite len_app, HlQ. change (len (glyphQuad _ _ _ _)) with 16. lia. }
      assert (A4 : len (I ++ glyphIndices (4 * q)) = 6 * (q + 1)).
      { rewrite len_app, HlI. change (len (glyphIndices _)) with 6. lia. }
      assert (A5 : vtx st1 = 4 * (q + 1)).
      { subst st1. simpl. rewrite u16_small by lia. lia. }
      assert (A6 : idx st1 = 6 * (q + 1)) by (subst st1; simpl; lia).
      assert (A7 : 16 * len runes ≤ len (drop (length (glyphQuad f st r c)) Z1)).
      { unfold len. rewrite length_drop.
        change (length (glyphQuad _ _ _ _)) with 16%nat. unfold len in HZ1. lia. }
      assert (A8 : 6 * len runes ≤ len (drop (length (glyphIndices (4 * q))) Z2)).
      { unfold len. rewrite length_drop.
        change (length (glyphIndices _)) with 6%nat. unfold len in HZ2. lia. }
      destruct (IH st1 (q + 1) _ _ _ _ Hp' A1 A2 A3 A4 A5 A6
                  ltac:(lia) ltac:(lia) A7 A8)
        as (st' & Z1' & Z2' & Hrun & Hvb & Hib & Hv' & Hi' & Hpen).
      exists st', Z1', Z2'. split; [exact Hrun |].
      assert (Hpen1 : pen st1 = penStep f twp (pen st) r).
      { subst st1. unfold pen. simpl. symmetry. by apply penStep_glyph. }
      rewrite Hpen1 in Hvb, Hpen.
      rewrite (layoutQuads_emit f twp (pen st) r c runes Hpr Hc).
      rewrite (layoutIndices_emit f q r runes (emitsQuad_known f r c Hpr Hc)).
      rewrite quadCount_cons, (emitsQuad_known f r c Hpr Hc).
      rewrite glyphIndices_small in Hib by lia.
      rewrite <- !app_assoc in Hvb, Hib. rewrite <- !app_assoc.
      split; [exact Hvb |]. split; [exact Hib |].
      split; [lia |]. split; [lia | exact Hpen].
    + (* nothing is emitted *)
      destruct (layoutRune_spec p f twp st r 1 [] []) as (st1 & H1 & _ & Hidx1 & _).
      { destruct Hp as [?|Hp]; [by left | right]. intros ?. by apply (Forall_inv Hp). }
      { exists q. repeat split; try done; try lia.
        - rewrite Hvtx. rewrite u16_small; lia.
        - rewrite HQ, len_app. lia.
        - rewrite HI, len_app. lia. }
      { lia. }
      rewrite He in Hidx1.
      pose proof (layoutRune_buffers p f twp st r st1 He H1) as (Hvb1 & Hib1 & Hvtx1 & Hidx1').
      rewrite H1.
      destruct (IH st1 q Q I Z1 Z2) as (st' & Z1' & Z2' & Hrun & Hvb & Hib & Hv' & Hi' & Hpen);
        try done; try lia; try congruence.
      exists st', Z1', Z2'. split; [exact Hrun |].
      rewrite (layoutRune_pen p f twp st r st1 H1) in Hvb, Hpen.
      rewrite (layoutQuads_skip f twp (pen st) r runes He).
      rewrite (layoutIndices_skip f q r runes He), quadCount_cons, He.
      split; [exact Hvb |]. split; [exact Hib |].
      split; [lia |]. split; [lia | exact Hpen].
Qed.

Lemma layoutText_content p f twp runes :
  p = Report ∨ allGlyphsKnown f runes →
  quadCount f runes < 4096 →
  layoutText p f twp runes
  = Ok (mkLayout (4 * quadCount f runes)
          (layoutQuads f twp penStart runes)
          (layoutIndices f 0 runes)
          (boundsAfter f (penCursor (foldl (penStep f twp) penStart runes)))).
Proof.
  intros Hp Hqc. pose proof (quadCount_nonneg f runes) as Hq0.
  assert (Hl0 : 0 ≤ len runes) by (unfold len; lia).
  destruct (layoutRunes_content p f twp runes (layoutStart runes) 0 [] []
              (replicate (Z.to_nat (len runes * 4 * 4)) f32_zero)
              (replicate (Z.to_nat (len runes * 6)) 0))
    as (st' & Z1' & Z2' & Hrun & Hvb & Hib & Hv & Hi & Hpen);
    try done; try lia.
  { unfold len. rewrite length_replicate. lia. }
  { unfold len. rewrite length_replicate. lia. }
  unfold layoutText, mbind, Res_bind. rewrite Hrun.
  unfold layoutFinish, slice_to, mbind, Res_bind, mret, Res_ret.
  simpl in Hvb, Hib. rewrite Z.add_0_l in Hv, Hi.
  rewrite Hvb, Hib, Hv, Hi, !len_app, len_layoutQuads, len_layoutIndices.
  replace (u16 (4 * quadCount f runes * 4)) with (16 * quadCount f runes)
    by (rewrite u16_small; lia).
  assert (0 ≤ len Z1') by (unfold len; lia).
  assert (0 ≤ len Z2') by (unfold len; lia).
  destruct (Z.leb_spec0 0 (16 * quadCount f runes)); [| lia].
  destruct (Z.leb_spec0 (16 * quadCount f runes)
              (16 * quadCount f runes + len Z1')); [| lia].
  destruct (Z.leb_spec0 0 (6 * quadCount f runes)); [| lia].
  destruct (Z.leb_spec0 (6 * quadCount f runes)
              (6 * quadCount f runes + len Z2')); [| lia].
  simpl. do 2 f_equal.
  - rewrite <- (len_layoutQuads f twp runes penStart). unfold len.
    by rewrite Nat2Z.id, take_app_length.
  - rewrite <- (len_layoutIndices f runes 0). unfold len.
    by rewrite Nat2Z.id, take_app_length.
  - change (pen (layoutStart runes)) with penStart in Hpen. rewrite <- Hpen.
    reflexivity.
Qed.

(** X11.  For a text of fewer than 4096 quads, the layout is the text read
    rune by rune: the vertex data is the quad of every printable rune with a
    glyph, in order, each placed at the pen position reached before it; the
    indices are [4k, 4k+1, 4k+2, 4k+2, 4k+3, 4k] for the [k]-th quad; the
    vertex count is four per quad; the bounds are those of the final pen. *)
Theorem layout_is_one_quad_per_glyph p f twp runes :
  p = Report ∨ allGlyphsKnown f runes →
  quadCount f runes < 4096 →
  layoutText p f twp runes
  = Ok (mkLayout (4 * quadCount f runes)
          (layoutQuads f twp penStart runes)
          (layoutIndices f 0 runes)
          (boundsAfter f (penCursor (foldl (penStep f twp) penStart runes)))).
Proof. apply layoutText_content. Qed.

Lemma layout_is_one_quad_per_glyph_witness :
  layoutText Report font20 (f32_of_int 40) [rune_A; rune_question; rune_tab; rune_B]
  = Ok (mkLayout (4 * quadCount font20 [rune_A; rune_question; rune_tab; rune_B])
          (layoutQuads font20 (f32_of_int 40) penStart
             [rune_A; rune_question; rune_tab; rune_B])
          (layoutIndices font20 0 [rune_A; rune_question; rune_tab; rune_B])
          (boundsAfter font20
             (penCursor (foldl (penStep font20 (f32_of_int 40)) penStart
                           [rune_A; rune_question; rune_tab; rune_B])))).
Proof.
  apply (layout_is_one_quad_per_glyph Report font20 (f32_of_int 40)
           [rune_A; rune_question; rune_tab; rune_B]).
  - left. reflexivity.
  - vm_compute. reflexivity.
Defined.

Lemma layoutIndices_range f runes : ∀ k,
  0 ≤ k →
  Forall (λ i, 4 * k ≤ i < 4 * (k + quadCount f runes)) (layoutIndices f k runes).
Proof.
  induction runes as [|r runes IH]; intros k Hk.
  - constructor.
  - pose proof (quadCount_nonneg f runes) as Hq.
    rewrite quadCount_cons. destruct (emitsQuad f r) eqn:He.
    + rewrite (layoutIndices_emit f k r runes He).
      apply Forall_app. split.
      * repeat constructor; lia.
      * eapply Forall_impl; [apply (IH (k + 1)); lia |]. simpl. lia.
    + rewrite (layoutIndices_skip f k r runes He).
      eapply Forall_impl; [apply (IH k); lia |]. simpl. lia.
Qed.

(** X12.  For a text of fewer than 4096 quads the layout hands the mesh
    consistent arrays: four floats for each of its vertices, two triangles
    per quad, and only indices of vertices it holds. *)
Theorem layout_is_consistent p f twp runes :
  p = Report ∨ allGlyphsKnown f runes →
  quadCount f runes < 4096 →
  ∃ out, layoutText p f twp runes = Ok out
         ∧ outVertexCount out = 4 * quadCount f runes
         ∧ len (outVertices out) = 4 * outVertexCount out
         ∧ len (outIndices out) = 3 * (2 * quadCount f runes)
         ∧ Forall (λ i, 0 ≤ i < outVertexCount out) (outIndices out).
Proof.
  intros Hp Hqc. rewrite (layoutText_content p f twp runes Hp Hqc).
  eexists. split; [reflexivity |]. simpl.
  rewrite len_layoutQuads, len_layoutIndices.
  repeat split; try lia.
  eapply Forall_impl; [apply (layoutIndices_range f runes 0); lia |].
  simpl. lia.
Qed.

Lemma layout_is_consistent_witness :
  ∃ out, layoutText Report font20 (f32_of_int 40) [rune_A; rune_question; rune_B]
         = Ok out
         ∧ outVertexCount out = 4 * quadCount font20 [rune_A; rune_question; rune_B]
         ∧ len (outVertices out) = 4 * outVertexCount out
         ∧ len (outIndices out)
           = 3 * (2 * quadCount font20 [rune_A; rune_question; rune_B])
         ∧ Forall (λ i, 0 ≤ i < outVertexCount out) (outIndices out).
Proof.
  apply (layout_is_consistent Report font20 (f32_of_int 40)
           [rune_A; rune_question; rune_B]).
  - left. reflexivity.
  - vm_compute. reflexivity.
Defined.

Lemma quadCount_control f runes :
  Forall (λ r, printable r = false) runes → quadCount f runes = 0.
Proof.
  induction 1 as [|r runes Hr _ IH]; [reflexivity |].
  rewrite quadCount_cons, IH, (emitsQuad_control f r Hr). reflexivity.
Qed.

Lemma len_zero_nil {A : Type} (l : list A) : len l = 0 → l = [].
Proof. destruct l; [done |]. unfold len. rewrite length_cons. lia. Qed.

(** X14.  A text without printable runes (the empty text, or only carriage
    returns, newlines and tabs) gives a mesh without vertices and without
    indices, whatever the font holds and whatever a failed assertion does. *)
Theorem control_runes_emit_nothing p f twp runes :
  Forall (λ r, printable r = false) runes →
  ∃ out, layoutText p f twp runes = Ok out
         ∧ outVertexCount out = 0
         ∧ outVertices out = []
         ∧ outIndices out = [].
Proof.
  intros Hctl. pose proof (quadCount_control f runes Hctl) as Hq.
  assert (Hknown : allGlyphsKnown f runes).
  { eapply Forall_impl; [exact Hctl |]. simpl. intros r Hr Hp. congruence. }
  rewrite (layoutText_content p f twp runes (or_intror Hknown)) by lia.
  eexists. split; [reflexivity |]. simpl. rewrite Hq.
  split; [reflexivity |]. split; apply len_zero_nil.
  - rewrite len_layoutQuads, Hq. reflexivity.
  - rewrite len_layoutIndices, Hq. reflexivity.
Qed.

Lemma control_runes_emit_nothing_witness :
  ∃ out, layoutText Abort font20 (f32_of_int 40)
           [rune_tab; rune_newline; rune_return] = Ok out
         ∧ outVertexCount out = 0
         ∧ outVertices out = []
         ∧ outIndices out = [].
Proof.
  apply (control_runes_emit_nothing Abort font20 (f32_of_int 40)
           [rune_tab; rune_newline; rune_return]).
  repeat constructor.
Defined.

(** ** Further properties of the text component *)



(** X16.  The colour and the geometry are independent: setting the colour
    and then regenerating gives the component that regenerating and then
    setting the colour gives, and fails when that fails. *)
Theorem SetColor_commutes_with_update p engine c m :
  Text_update p engine (Text_SetColor c m)
  = mapRes (Text_SetColor c) (Text_update p engine m).
Proof.
  unfold Text_update, Mesh_SetVertexData, mbind, Res_bind, mret, Res_ret. simpl.
  destruct (layoutText p (font m) (tabWidthPt m) (text m)) as [out|e];
    [| reflexivity].
  destruct (AssertValidGeometry _ _ _ _ _ _ _ _) as [[]|e]; reflexivity.
Qed.

Lemma layoutQuads_app f twp a b : ∀ pn,
  layoutQuads f twp pn (a ++ b)
  = layoutQuads f twp pn a ++ layoutQuads f twp (foldl (penStep f twp) pn a) b.
Proof.
  induction a as [|r a IH]; intros pn; [reflexivity |].
  cbn [app layoutQuads foldl]. by rewrite IH, app_assoc.
Qed.

Lemma layoutIndices_app f a b : ∀ k,
  layoutIndices f k (a ++ b)
  = layoutIndices f k a ++ layoutIndices f (k + quadCount f a) b.
Proof.
  induction a as [|r a IH]; intros k.
  - simpl. change (quadCount f []) with 0. by rewrite Z.add_0_r.
  - rewrite <- app_comm_cons, quadCount_cons.
    destruct (emitsQuad f r) eqn:He.
    + rewrite !(layoutIndices_emit f k r _ He), IH, <- app_assoc.
      replace (k + 1 + quadCount f a) with (k + (1 + quadCount f a)) by lia.
      reflexivity.
    + rewrite !(layoutIndices_skip f k r _ He), IH.
      replace (k + (0 + quadCount f a)) with (k + quadCount f a) by lia.
      reflexivity.
Qed.

(** X21.  Typing on never moves what is already laid out: for a text of
    fewer than 4096 quads, the vertex data and the indices of a beginning of
    the text are the beginning of those of the whole text. *)
Theorem layout_of_prefix p f twp a b :
  p = Report ∨ allGlyphsKnown f (a ++ b) →
  quadCount f (a ++ b) < 4096 →
  ∃ outA outAB,
    layoutText p f twp a = Ok outA
    ∧ layoutText p f twp (a ++ b) = Ok outAB
    ∧ outVertices outA `prefix_of` outVertices outAB
    ∧ outIndices outA `prefix_of` outIndices outAB.
Proof.
  intros Hp Hqc.
  pose proof (quadCount_nonneg f b) as Hb. rewrite quadCount_app in Hqc.
  assert (Hpa : p = Report ∨ allGlyphsKnown f a).
  { destruct Hp as [?|Hp]; [by left | right].
    unfold allGlyphsKnown in *. by apply Forall_app in Hp as [? _]. }
  rewrite (layoutText_content p f twp a Hpa) by lia.
  rewrite (layoutText_content p f twp (a ++ b) Hp)
    by (rewrite quadCount_app; lia).
  eexists. eexists. split; [reflexivity |]. split; [reflexivity |]. simpl.
  rewrite layoutQuads_app, layoutIndices_app.
  split; by apply prefix_app_r.
Qed.

Lemma layout_of_prefix_witness :
  ∃ outA outAB,
    layoutText Report font20 (f32_of_int 40) [rune_A; rune_B] = Ok outA
    ∧ layoutText Report font20 (f32_of_int 40)
        ([rune_A; rune_B] ++ [rune_newline; rune_C]) = Ok outAB
    ∧ outVertices outA `prefix_of` outVertices outAB
    ∧ outIndices outA `prefix_of` outIndices outAB.
Proof.
  apply (layout_of_prefix Report font20 (f32_of_int 40) [rune_A; rune_B]
           [rune_newline; rune_C]).
  - left. reflexivity.
  - vm_compute. reflexivity.
Defined.

(** ** Properties of the font loader *)

Section LoadProperties.
Context {E Content : Type}.
Variable ReadFile : string → Content + E.
Variable Unmarshal : Content → font.nglFont * option E.
Variable runesOf : string → list rune.

Lemma loadChar_fields prev c f :
  font.Family (font.loadChar runesOf prev c f) = font.Family f
  ∧ font.Style (font.loadChar runesOf prev c f) = font.Style f
  ∧ font.Size (font.loadChar runesOf prev c f) = font.Size f
  ∧ font.Ascender (font.loadChar runesOf prev c f) = font.Ascender f
  ∧ font.Descender (font.loadChar runesOf prev c f) = font.Descender f
  ∧ font.Height (font.loadChar runesOf prev c f) = font.Height f
  ∧ font.Texture (font.loadChar runesOf prev c f) = font.Texture f.
Proof.
  unfold font.loadChar. destruct (runesOf (font.ID c)) as [|r [|? ?]]; done.
Qed.

Lemma loadChars_fields cs : ∀ prev f,
  font.Family (font.loadChars runesOf prev cs f) = font.Family f
  ∧ font.Style (font.loadChars runesOf prev cs f) = font.Style f
  ∧ font.Size (font.loadChars runesOf prev cs f) = font.Size f
  ∧ font.Ascender (font.loadChars runesOf prev cs f) = font.Ascender f
  ∧ font.Descender (font.loadChars runesOf prev cs f) = font.Descender f
  ∧ font.Height (font.loadChars runesOf prev cs f) = font.Height f
  ∧ font.Texture (font.loadChars runesOf prev cs f) = font.Texture f.
Proof.
  induction cs as [|c cs IH]; intros prev f; simpl; [done |].
  destruct (IH (Some c) (font.loadChar runesOf prev c f)) as (?&?&?&?&?&?&?).
  destruct (loadChar_fields prev c f) as (?&?&?&?&?&?&?).
  repeat split; congruence.
Qed.


Lemma loadChar_lookup prev c f r :
  font.Chars (font.loadChar runesOf prev c f) !! r
  = if decide (runesOf (font.ID c) = [r]) then Some (font.charOf c)
    else font.Chars f !! r.
Proof.
  unfold font.loadChar.
  destruct (runesOf (font.ID c)) as [|r0 [|? ?]] eqn:Hr.
  - by rewrite decide_False.
  - simpl. destruct (decide (r0 = r)) as [->|Hne].
    + by rewrite decide_True, lookup_insert_eq.
    + rewrite decide_False by congruence. by rewrite lookup_insert_ne.
  - by rewrite decide_False.
Qed.

Lemma loadChars_lookup cs r : ∀ prev f,
  font.Chars (font.loadChars runesOf prev cs f) !! r
  = match last (entriesFor runesOf r cs) with
    | Some c => Some (font.charOf c)
    | None => font.Chars f !! r
    end.
Proof.
  induction cs as [|c cs IH]; intros prev f; simpl; [done |].
  rewrite IH, loadChar_lookup. unfold entriesFor. rewrite filter_cons.
  destruct (decide (runesOf (font.ID c) = [r])) as [Hc|Hc].
  - fold (entriesFor runesOf r cs).
    destruct (entriesFor runesOf r cs) as [|c1 l] eqn:Hl; [done |].
    change (last (c :: c1 :: l)) with (last (c1 :: l)).
    destruct (last (c1 :: l)) eqn:Hlast; [done |].
    by apply last_None in Hlast.
  - done.
Qed.

(** X18.  In a loaded font, the glyph of a rune is taken from the last
    entry of the file whose ID is exactly that rune (its advance is the
    width, its offset and rectangle the offset, position and size); a rune
    without such an entry has no glyph, so entries whose ID is empty or
    longer than one rune are left out. *)
Theorem loaded_glyph ngl r :
  font.Chars (font.buildFont runesOf ngl) !! r
  = font.charOf <$> last (entriesFor runesOf r (font.nglChars ngl)).
Proof.
  unfold font.buildFont. rewrite loadChars_lookup. simpl.
  by destruct (last _).
Qed.

Lemma loadChars_Monospace cs : ∀ prev f,
  font.Monospace (font.loadChars runesOf prev cs f) = true
  ↔ font.Monospace f = true ∧ advancesAgree runesOf prev cs.
Proof.
  induction cs as [|c cs IH]; intros prev f; simpl; [tauto |].
  rewrite IH. unfold font.loadChar.
  destruct (runesOf (font.ID c)) as [|r [|? ?]] eqn:Hr; simpl.
  - split; [intros [? ?] | intros (? & ? & ?)]; repeat split; try done;
      try (intros c0 _ Hl; simpl in Hl; lia).
  - destruct prev as [c0|].
    + destruct (Z.eqb_spec (font.Advance c) (font.Advance c0)) as [Ha|Ha]; simpl.
      * split; [intros [? ?] | intros (? & ? & ?)]; repeat split; try done;
          try (by intros c0' [= <-] _).
      * split; [intros [? _]; done | intros (_ & Hc & _)].
        exfalso. by apply Ha, Hc.
    + split; [intros [? ?] | intros (? & ? & ?)]; repeat split; try done.
  - split; [intros [? ?] | intros (? & ? & ?)]; repeat split; try done;
      try (intros c0 _ Hl; simpl in Hl; lia).
Qed.

(** X19.  A loaded font is flagged monospace exactly when every entry with
    a single-rune ID advances as the entry just before it in the file; the
    entry before it counts even when its own ID is not a single rune. *)
Theorem loaded_Monospace ngl :
  font.Monospace (font.buildFont runesOf ngl) = true
  ↔ advancesAgree runesOf None (font.nglChars ngl).
Proof.
  unfold font.buildFont. rewrite loadChars_Monospace. simpl. tauto.
Qed.

Lemma advancesAgree_uniform cs : ∀ c0,
  Forall (λ c, length (runesOf (font.ID c)) = 1%nat) cs →
  advancesAgree runesOf (Some c0) cs
  ↔ Forall (λ c, font.Advance c = font.Advance c0) cs.
Proof.
  induction cs as [|c cs IH]; intros c0 Hall; simpl.
  - split; [constructor | done].
  - apply Forall_cons in Hall as [Hc Hall]. rewrite (IH c Hall), Forall_cons.
    split.
    + intros [Hhead Htail]. specialize (Hhead c0 eq_refl Hc).
      split; [done |]. eapply Forall_impl; [exact Htail |]. simpl. congruence.
    + intros [Hhead Htail]. split; [by intros c0' [= <-] _ |].
      eapply Forall_impl; [exact Htail |]. simpl. congruence.
Qed.

(** X20.  When every entry of the file has a single-rune ID, the loaded
    font is flagged monospace exactly when all entries have the same
    advance. *)
Theorem loaded_Monospace_uniform ngl :
  Forall (λ c, length (runesOf (font.ID c)) = 1%nat) (font.nglChars ngl) →
  font.Monospace (font.buildFont runesOf ngl) = true
  ↔ ∀ c c', c ∈ font.nglChars ngl → c' ∈ font.nglChars ngl →
            font.Advance c = font.Advance c'.
Proof.
  intros Hall. unfold font.buildFont. rewrite loadChars_Monospace. simpl.
  destruct (font.nglChars ngl) as [|c0 cs]; simpl.
  - split; [| done]. intros _ c c' Hc. by apply elem_of_nil in Hc.
  - apply Forall_cons in Hall as [_ Hall].
    rewrite (advancesAgree_uniform cs c0 Hall), Forall_forall. split.
    + intros (_ & _ & Hcs) c c' Hc Hc'.
      assert (Hadv : ∀ x, x ∈ c0 :: cs → font.Advance x = font.Advance c0).
      { intros x [->|Hx]%elem_of_cons; [done | by apply Hcs]. }
      by rewrite (Hadv c Hc), (Hadv c' Hc').
    + intros Hsame. repeat split; [by intros ? [=] |].
      intros x Hx. apply Hsame; [by right | by left].
Qed.
End LoadProperties.

Lemma loaded_Monospace_uniform_witness :
  font.Monospace (font.buildFont asciiRunes nglPlain) = true
  ↔ ∀ c c', c ∈ font.nglChars nglPlain → c' ∈ font.nglChars nglPlain →
            font.Advance c = font.Advance c'.
Proof.
  apply (loaded_Monospace_uniform asciiRunes nglPlain).
  repeat constructor.
Defined.
